(** * Snail: a shallow embedding of [snail/snail.py]

    The development follows the methods of class [Snail] one by one:
    [extract_listings] (a regular-expression scan), [searching] and
    [get_cot_result] (calls to the generation backend), [create_ds] and
    [transform_alpaca_format] (dictionary reshaping and a file write) and
    [push_to_hf] (calls to the dataset hub).

    Python values are modelled as follows.
    - A [str] is a list of characters.  Characters are 8-bit ([ascii]), so
      the texts covered are those whose code points lie below 256; on that
      range the Unicode classes used by [re] and [str.rstrip] are the
      tables [isdecimal] and [isspace] below.
    - A [dict] is the list of its entries in insertion order, without
      duplicate keys (module [PyDict]).
    - Exceptions are values of type [exn]; a method runs in the monad [M],
      which threads a [world] (the number of backend calls and the trace of
      the observable effects: backend calls, prints, sleeps, file writes,
      hub requests) and the local variables of the method, and answers the
      requests to the outside world from an [env]. *)

From Stdlib Require Import Ascii String DecimalString.
From stdpp Require Import base option list strings.

(* ===================================================================== *)
(** * Strings *)
(* ===================================================================== *)

Abbreviation str := (list ascii).

(** The text of a literal: [py "abc"] is the Python string ['abc']. *)
Definition py (s : string) : str := list_ascii_of_string s.

(** The newline character, ['\n']. *)
Definition nl : ascii := "010"%char.

(** [Py_UNICODE_ISDECIMAL] on code points below 256: the digits 0 to 9. *)
Definition isdecimal (c : ascii) : bool :=
  let n := nat_of_ascii c in (48 <=? n) && (n <=? 57).

(** [Py_UNICODE_ISSPACE] on code points below 256: tab, line feed, vertical
    tab, form feed, carriage return, the four separators 0x1c to 0x1f,
    space, next line (0x85) and no-break space (0xa0). *)
Definition isspace (c : ascii) : bool :=
  let n := nat_of_ascii c in
  ((9 <=? n) && (n <=? 13)) || ((28 <=? n) && (n <=? 32))
  || (n =? 133) || (n =? 160).

(** [drop_while f s] removes the longest prefix of [s] whose characters
    satisfy [f]. *)
Fixpoint drop_while (f : ascii → bool) (s : str) : str :=
  match s with
  | c :: s' => if f c then drop_while f s' else s
  | [] => []
  end.

(** [str.rstrip()] with no argument: the string without its trailing
    whitespace. *)
Definition rstrip (s : str) : str := reverse (drop_while isspace (reverse s)).

(* ===================================================================== *)
(** * The regular-expression engine *)
(* ===================================================================== *)

Module Re.

(** What one character of the pattern can be matched against. *)
Inductive category : Type :=
| Lit (c : ascii)   (* a literal character *)
| Digit             (* \d *)
| Space             (* \s *)
| Any.              (* .  : every character but the newline *)

Definition category_match (a : category) (c : ascii) : bool :=
  match a with
  | Lit c' => bool_decide (c = c')
  | Digit => isdecimal c
  | Space => isspace c
  | Any => negb (bool_decide (c = nl))
  end.

(** A compiled pattern is a sequence of operations.  [Mark] records the
    current position; the marks 0 and 1 delimit group 1. *)
Inductive op : Type :=
| Char (a : category)   (* exactly one character of the category *)
| Star (a : category)   (* a*, greedy *)
| Plus (a : category)   (* a+, greedy *)
| Mark.

Abbreviation pattern := (list op).

(** The result of a match: the end position and the marks, most recent
    first. *)
Abbreviation result := (option (nat * list nat)).

(** Greedy repetition: consume as many characters of category [a] as
    possible, then run the rest of the pattern [k]; when [k] fails, give
    back one character and try again. *)
Fixpoint repeat_greedy (a : category) (k : str → nat → list nat → result)
    (s : str) (pos : nat) (marks : list nat) : result :=
  match s with
  | c :: s' =>
      if category_match a c then
        match repeat_greedy a k s' (S pos) marks with
        | Some r => Some r
        | None => k s pos marks
        end
      else k s pos marks
  | [] => k s pos marks
  end.

(** [sre_match p s pos marks]: match the pattern [p] against the text [s],
    which begins at position [pos] of the subject string. *)
Fixpoint sre_match (p : pattern) (s : str) (pos : nat) (marks : list nat)
    : result :=
  match p with
  | [] => Some (pos, marks)
  | Char a :: p' =>
      match s with
      | c :: s' =>
          if category_match a c then sre_match p' s' (S pos) marks else None
      | [] => None
      end
  | Star a :: p' => repeat_greedy a (sre_match p') s pos marks
  | Plus a :: p' =>
      match s with
      | c :: s' =>
          if category_match a c
          then repeat_greedy a (sre_match p') s' (S pos) marks
          else None
      | [] => None
      end
  | Mark :: p' => sre_match p' s pos (pos :: marks)
  end.

(** [search p s pos]: the leftmost match in the text [s] that begins at
    position [pos]; the result is the start, the end and the marks. *)
Fixpoint search (p : pattern) (s : str) (pos : nat)
    : option (nat * nat * list nat) :=
  match sre_match p s pos [] with
  | Some (e, marks) => Some (pos, e, marks)
  | None =>
      match s with
      | _ :: s' => search p s' (S pos)
      | [] => None
      end
  end.

(** Group 1 of a match on [text]: the slice between the two marks. *)
Definition group1 (text : str) (marks : list nat) : str :=
  match marks with
  | [m1; m0] => take (m1 - m0) (drop m0 text)
  | _ => []
  end.

(** The loop of [re.findall] for a pattern with one group: search from
    [pos], keep group 1, go on from the end of the match.  The loop runs at
    most [fuel] times; a match of the pattern of this file has at least
    four characters, so one turn per character of the text is enough
    (lemma [findall_loop_occurrences]). *)
Fixpoint findall_loop (fuel : nat) (p : pattern) (text : str) (pos : nat)
    : list str :=
  match fuel with
  | 0 => []
  | S fuel' =>
      match search p (drop pos text) pos with
      | Some (_, e, marks) =>
          group1 text marks :: findall_loop fuel' p text e
      | None => []
      end
  end.

Definition findall (p : pattern) (text : str) : list str :=
  findall_loop (S (length text)) p text 0.

End Re.

(* ===================================================================== *)
(** * [Snail.extract_listings] *)
(* ===================================================================== *)

(** The pattern of [extract_listings], compiled: a newline, [\d+], a
    period, [\s+], then group 1 around a greedy run of [.]. *)
Definition marker_pattern : Re.pattern :=
  [Re.Char (Re.Lit nl); Re.Plus Re.Digit; Re.Char (Re.Lit "."%char);
   Re.Plus Re.Space; Re.Mark; Re.Star Re.Any; Re.Mark].

Definition extract_listings (listings : str) : list str :=
  rstrip <$> Re.findall marker_pattern listings.

(* ===================================================================== *)
(** * Dictionaries *)
(* ===================================================================== *)

(** A Python [dict]: its entries in insertion order.  Assigning to a key
    that is present replaces the value and leaves the entry where it is;
    assigning to a new key adds an entry at the end. *)
Module PyDict.
Section dict.
Context {K V : Type} `{EqDecision K}.

Fixpoint setitem (k : K) (v : V) (d : list (K * V)) : list (K * V) :=
  match d with
  | [] => [(k, v)]
  | (k', v') :: d' =>
      if decide (k = k') then (k', v) :: d' else (k', v') :: setitem k v d'
  end.

Fixpoint getitem (k : K) (d : list (K * V)) : option V :=
  match d with
  | [] => None
  | (k', v') :: d' => if decide (k = k') then Some v' else getitem k d'
  end.

(** [dict(pairs)]: the pairs are assigned one after the other. *)
Definition of_pairs (pairs : list (K * V)) : list (K * V) :=
  foldl (λ d kv, setitem kv.1 kv.2 d) [] pairs.

Definition items (d : list (K * V)) : list (K * V) := d.
Definition keys (d : list (K * V)) : list K := d.*1.
Definition len (d : list (K * V)) : nat := length d.
End dict.
End PyDict.

Abbreviation pydict := (list (str * str)).

(* ===================================================================== *)
(** * Exceptions, the outside world and the monad of methods *)
(* ===================================================================== *)

(** Instances of [Exception].  [APIError] stands for whatever the
    generation backend raises, [HubError] for what the dataset hub
    raises. *)
Inductive exn : Type :=
| ValueError (msg : string)
| AttributeError (msg : string)
| OSError (msg : string)
| APIError (msg : string)
| HubError (msg : string).

Inductive result (A : Type) : Type :=
| Return (a : A)
| Raise (e : exn).
Arguments Return {A} a.
Arguments Raise {A} e.

(** The request of [client.models.generate_content]. *)
Record request : Type := {
  req_model : str;
  req_contents : str;
  req_system_instruction : str;
  req_google_search : bool;            (* tools=[google_search_tool] *)
  req_response_modalities : list str;
  req_max_output_tokens : option Z
}.

(** The response object of the backend.  Its attribute [text] is taken to
    be a string, as the annotations of the methods have it; a response
    whose [text] is [None] is outside this model, and no statement below
    says that a returned response carries a text. *)
Record response : Type := {
  text : str;
  usage_metadata : str
}.

Record datetime : Type := {
  year : nat; month : nat; day : nat;
  hour : nat; minute : nat; second : nat
}.

(** A flat record, the dict with the keys "instruction", "input" and
    "output". *)
Record alpaca : Type := {
  instruction : str;
  input : str;
  output : str
}.

(** The lines the methods print. *)
Inductive printed : Type :=
| SearchError (e : exn)
| CotReport (data : str) (response_text : str) (usage : str)
| CotError (data : str) (e : exn)
| PushDone (url : str)
| PushError (e : exn).

(** What the methods do to the outside world, in the order they do it. *)
Inductive event : Type :=
| Generate (req : request)
| Printed (line : printed)
| Sleep (seconds : Z)
| WriteJson (file : str) (data : list alpaca)
| CreateRepo (repo_id : str)
| PushCard (repo_id : str) (content : str)
| LoadDataset (data_files : str)
| PushDataset (data_files : str) (repo_id : str).

(** How the outside world answers.  The backend answers its [n]-th call
    with an exception, with [None] or with a response object. *)
Record env : Type := {
  backend : nat → request → result (option response);
  clock : datetime;
  fs_open_w : str → option exn;
  hub_create_repo : str → result str;
  hub_push_card : str → str → option exn;
  hub_load_dataset : str → option exn;
  hub_push_dataset : str → str → option exn
}.

Record world : Type := {
  calls : nat;            (* calls made to the backend so far *)
  trace : list event      (* oldest first *)
}.

(** A method body with local variables of type [L]: it reads the
    environment, changes the world and its locals, and returns or raises.
    The world and the locals are kept when an exception is raised. *)
Definition M (L A : Type) : Type := env → world → L → result A * world * L.

Section monad.
Context {L : Type}.

#[export] Instance M_ret : MRet (M L) := λ A a _ w l, (Return a, w, l).

#[export] Instance M_bind : MBind (M L) := λ A B f m E w l,
  match m E w l with
  | (Return a, w', l') => f a E w' l'
  | (Raise e, w', l') => (Raise e, w', l')
  end.

Definition raise {A} (e : exn) : M L A := λ _ w l, (Raise e, w, l).

(** [try: body except Exception as e: handler e]. *)
Definition try_catch {A} (body : M L A) (handler : exn → M L A) : M L A :=
  λ E w l,
    match body E w l with
    | (Return a, w', l') => (Return a, w', l')
    | (Raise e, w', l') => handler e E w' l'
    end.

Definition emit (ev : event) : M L unit := λ _ w l,
  (Return (), {| calls := calls w; trace := trace w ++ [ev] |}, l).

Definition with_env {A} (f : env → M L A) : M L A := λ E, f E E.

Definition get_local : M L L := λ _ w l, (Return l, w, l).
Definition set_local (l : L) : M L unit := λ _ w _, (Return (), w, l).

Definition lift_result {A} (r : result A) : M L A := λ _ w l, (r, w, l).

Definition lift_failure (o : option exn) : M L unit :=
  match o with
  | Some e => raise e
  | None => mret ()
  end.

(** [for x in xs: body x]. *)
Fixpoint for_each {A} (xs : list A) (body : A → M L unit) : M L unit :=
  match xs with
  | [] => mret ()
  | x :: xs' => body x;; for_each xs' body
  end.

Definition print (line : printed) : M L unit := emit (Printed line).

(** [time.sleep(seconds)]. *)
Definition sleep (seconds : Z) : M L unit :=
  if bool_decide (seconds < 0)%Z
  then raise (ValueError "sleep length must be non-negative")
  else emit (Sleep seconds).

(** [client.models.generate_content(...)]. *)
Definition generate_content (req : request) : M L (option response) :=
  λ E w l,
    (backend E (calls w) req,
     {| calls := S (calls w); trace := trace w ++ [Generate req] |}, l).

(** [response.text] and [response.usage_metadata]; [None] has no
    attributes. *)
Definition attr {A} (f : response → A) (name : string)
    (r : option response) : M L A :=
  match r with
  | Some r => mret (f r)
  | None =>
      raise (AttributeError
               ("'NoneType' object has no attribute '" +:+ name +:+ "'"))
  end.
End monad.

(* ===================================================================== *)
(** * Class [Snail] *)
(* ===================================================================== *)

(** The attributes [__init__] assigns (the client and the search tool are
    the backend of [env]). *)
Record snail : Type := {
  google_api_key : str;
  model_id : str;
  role : str;
  user_query : str;
  max_output_tokens : Z;
  system_instruction_google_search : str;
  system_instruction_cot : str
}.

(** [s.join(lines)] for the one-character string [sep]. *)
Fixpoint join (sep : ascii) (lines : list str) : str :=
  match lines with
  | [] => []
  | [l] => l
  | l :: ls => l ++ sep :: join sep ls
  end.

Definition dq : ascii := "034"%char.

(** [DATASET_CARD.format(username = username)]: the template has the one
    replacement field. *)
Definition dataset_card (username : str) : str :=
  join nl
    [ py "---";
      py "license: apache-2.0";
      py "language:";
      py "- en";
      py "task_categories:";
      py "- text-generation";
      py "size_categories:";
      py "- n<1K";
      py "---";
      py "";
      py "# Uploaded dataset";
      py "";
      py "- **Developed by:** " ++ username;
      py "- **License:** apache-2.0";
      py "";
      py "# Made with Snail";
      py "";
      py "[<img src=" ++ dq ::
        py "https://raw.githubusercontent.com/ioscbasotcstw/Snail/main/snail_mascot.png"
        ++ dq :: py " width=" ++ dq :: py "200" ++ dq ::
        py "/>](https://github.com/ioscbasotcstw/Snail)";
      py "" ].

(** ** [searching] *)

Definition search_request (self : snail) : request :=
  {| req_model := model_id self;
     req_contents := user_query self;
     req_system_instruction := system_instruction_google_search self;
     req_google_search := true;
     req_response_modalities := [py "TEXT"];
     req_max_output_tokens := Some (max_output_tokens self) |}.

(** The result is the text of the response, or [None] when the method
    falls off its end. *)
Definition searching (self : snail) : M unit (option str) :=
  try_catch
    (response ← generate_content (search_request self);
     t ← attr text "text" response;
     mret (Some t))
    (λ e, print (SearchError e);; mret None).

(** ** [get_cot_result] *)

Definition cot_request (self : snail) (data : str) : request :=
  {| req_model := model_id self;
     req_contents := data;
     req_system_instruction := system_instruction_cot self;
     req_google_search := false;
     req_response_modalities := [];
     req_max_output_tokens := None |}.

(** The body of the loop, for one item.  The local variable is the list
    [results]. *)
Definition cot_item (self : snail) (delay : Z) (data : str)
    : M (list str) unit :=
  try_catch
    (response ← generate_content (cot_request self data);
     match response with
     | Some r => results ← get_local; set_local (results ++ [text r])
     | None => mret ()
     end;;
     t ← attr text "text" response;
     u ← attr usage_metadata "usage_metadata" response;
     print (CotReport data t u);;
     sleep delay)
    (λ e, print (CotError data e)).

Definition get_cot_result (self : snail) (datas : list str) (delay : Z)
    : M (list str) (list str) :=
  set_local [];;
  for_each datas (cot_item self delay);;
  get_local.

(** ** [create_ds] *)

Definition create_ds (instruction output : list str) : result pydict :=
  if bool_decide (length instruction ≠ length output)
  then Raise (ValueError "Instruction and output must be the same length")
  else Return (PyDict.of_pairs (zip instruction output)).

(** ** [transform_alpaca_format] *)

(** [n] in decimal, padded with zeros on the left to [width] digits. *)
Definition zero_pad (width n : nat) : str :=
  let digits := py (NilEmpty.string_of_uint (Nat.to_uint n)) in
  replicate (width - length digits) "0"%char ++ digits.

(** [now.strftime("%Y%m%d_%H%M%S")]. *)
Definition strftime (now : datetime) : str :=
  zero_pad 4 (year now) ++ zero_pad 2 (month now) ++ zero_pad 2 (day now)
  ++ py "_"
  ++ zero_pad 2 (hour now) ++ zero_pad 2 (minute now)
  ++ zero_pad 2 (second now).

Definition datetime_now {L} : M L datetime := λ E w l, (Return (clock E), w, l).

(** [with open(file, 'w') as f: json.dump(data, f, ...)]: opening the file
    may fail; the content written is recorded as the data it encodes. *)
Definition write_json {L} (file : str) (data : list alpaca) : M L unit :=
  λ E w l,
    match fs_open_w E file with
    | Some e => (Raise e, w, l)
    | None => emit (WriteJson file data) E w l
    end.

(** The local variable is the list [transformed_data]. *)
Definition transform_alpaca_format (dataset : pydict)
    : M (list alpaca) (str * list alpaca) :=
  set_local [];;
  for_each (PyDict.items dataset) (λ '(instruction, output),
    let transformed_pair :=
      {| instruction := instruction; input := py ""; output := output |} in
    transformed_data ← get_local;
    set_local (transformed_data ++ [transformed_pair]));;
  now ← datetime_now;
  let timestamp := strftime now in
  let output_file := py "transformed_qa_" ++ timestamp ++ py ".json" in
  transformed_data ← get_local;
  write_json output_file transformed_data;;
  mret (output_file, transformed_data).

(** ** [push_to_hf] *)

(** [s.split(sep)] for a one-character separator. *)
Fixpoint split (sep : ascii) (s : str) : list str :=
  match s with
  | [] => [[]]
  | c :: s' =>
      if bool_decide (c = sep) then [] :: split sep s'
      else match split sep s' with
           | part :: parts => (c :: part) :: parts
           | [] => [[c]]
           end
  end.

(** [a, b = parts]. *)
Definition unpack2 {L} (parts : list str) : M L (str * str) :=
  match parts with
  | [a; b] => mret (a, b)
  | [] | [_] => raise (ValueError "not enough values to unpack")
  | _ => raise (ValueError "too many values to unpack")
  end.

(** The requests to the dataset hub.  A loaded dataset is represented by
    the path of the file it was loaded from. *)
Definition create_repo (repo_id : str) : M unit str :=
  emit (CreateRepo repo_id);;
  with_env (λ E, lift_result (hub_create_repo E repo_id)).

Definition card_push_to_hub (content repo_id : str) : M unit unit :=
  emit (PushCard repo_id content);;
  with_env (λ E, lift_failure (hub_push_card E repo_id content)).

Definition load_dataset (data_files : str) : M unit str :=
  emit (LoadDataset data_files);;
  with_env (λ E, lift_failure (hub_load_dataset E data_files));;
  mret data_files.

Definition dataset_push_to_hub (dataset repo_id : str) : M unit unit :=
  emit (PushDataset dataset repo_id);;
  with_env (λ E, lift_failure (hub_push_dataset E dataset repo_id)).

Definition push_to_hf (json_path repo_id : str) : M unit unit :=
  if bool_decide (json_path = []) then
    raise (ValueError "The JSON file path must be provided and cannot be empty.")
  else if bool_decide (repo_id = []) then
    raise (ValueError "The repository ID must be provided and cannot be empty.")
  else
    try_catch
      (url ← create_repo repo_id;
       '(username, _) ← unpack2 (split "/"%char repo_id);
       let content := dataset_card username in
       card_push_to_hub content repo_id;;
       dataset ← load_dataset json_path;
       dataset_push_to_hub dataset repo_id;;
       print (PushDone url))
      (λ e, print (PushError e)).

(* ===================================================================== *)
(** * The constructor [Snail.__init__] *)
(* ===================================================================== *)

(** [value is None or value == ""] for an argument that is a string or
    [None]. *)
Definition missing (value : option str) : bool :=
  match value with
  | None | Some [] => true
  | Some (_ :: _) => false
  end.

(** [max_output_tokens is None or max_output_tokens <= 0]. *)
Definition not_positive (value : option Z) : bool :=
  match value with
  | None => true
  | Some n => bool_decide (n ≤ 0)%Z
  end.

(** [str(max_output_tokens)]. *)
Definition str_of_tokens (value : option Z) : string :=
  match value with
  | None => "None"
  | Some n => NilZero.string_of_int (Z.to_int n)
  end.

(** The lines after the first of the two instructions begin with the eight
    spaces of the source's indentation. *)
Definition indent : str := py "        ".

(** The instruction given to the search call, for a role. *)
Definition google_search_instruction (role : str) : str :=
  join nl
    [ py "You are " ++ role
        ++ py " expert with 20 years of experience in this field.";
      indent ++ py "Over the course of your long career, you have done a lot of research on various topics related to your field.";
      indent ++ py "You have learnt how to do research as accurately as possible, while performing a maximum of 2 checks on your current results.";
      indent ++ py "Now you have this vast experience and are helping others to do the same.";
      indent ++ py "Begin answer only with final result.";
      indent ].

(** The instruction given to the chain-of-thought calls, for a role. *)
Definition cot_instruction (role : str) : str :=
  join nl
    [ py "You are a " ++ role
        ++ py " expert skilled at explaining step by step mathematician problems, using a Chain of Thought (CoT) framework. Your response must include:";
      indent ++ py "- A thought process inside <thought></thought> tags, where you analyze the problem.";
      indent ++ py "- A final response inside <answer></answer> tags, solving the problem.";
      indent ++ py "Ensure your reasoning is clear, concise.";
      indent ].

(** [Snail(google_api_key, model_id, role, user_query, max_output_tokens)].
    The attributes are assigned, then checked one after the other; the
    client and the search tool are built after the check of the key, and
    [new_client] says whether building them raises. *)
Definition init (new_client : str → option exn)
    (google_api_key model_id role user_query : option str)
    (max_output_tokens : option Z) : result snail :=
  if missing google_api_key then
    Raise (ValueError "API key is missing or empty")
  else
    match new_client (default [] google_api_key) with
    | Some e => Raise e
    | None =>
        if missing model_id then
          Raise (ValueError "Model ID is missing or empty")
        else if missing role then
          Raise (ValueError "Role is missing or empty")
        else if missing user_query then
          Raise (ValueError "User query is missing or empty")
        else if not_positive max_output_tokens then
          Raise (ValueError
                   ("Max output tokens must be greater than zero, got "
                    +:+ str_of_tokens max_output_tokens))
        else
          Return
            {| google_api_key := default [] google_api_key;
               model_id := default [] model_id;
               role := default [] role;
               user_query := default [] user_query;
               max_output_tokens := default 0%Z max_output_tokens;
               system_instruction_google_search :=
                 google_search_instruction (default [] role);
               system_instruction_cot :=
                 cot_instruction (default [] role) |}
    end.

(** [self.system_instruction_cot = value]. *)
Definition set_system_instruction_cot (self : snail) (value : str) : snail :=
  {| google_api_key := google_api_key self;
     model_id := model_id self;
     role := role self;
     user_query := user_query self;
     max_output_tokens := max_output_tokens self;
     system_instruction_google_search := system_instruction_google_search self;
     system_instruction_cot := value |}.

(* ===================================================================== *)
(** * The driver [example/snail_example.py] *)
(* ===================================================================== *)

Module SnailExample.

(** The constants of the module. *)
Definition model_id : str := py "gemini-2.0-flash-thinking-exp-01-21".
Definition user_query : str := py "List 3 hard problems in physics, list them".
Definition role : str := py "theoretical physicist".
Definition delay : Z := 5.
Definition repo_id : str := py "".

(** What stops the driver: an exception of a method, or the [TypeError]
    of [re.findall] on [None]. *)
Inductive raised : Type :=
| MethodError (e : exn)
| TypeError (msg : string).

(** The lines the driver prints. *)
Inductive shown : Type :=
| ResultOfSearching (result_of_serching : option str)
| TheInstructions (instruction : list str)
| TheDataset (ds : pydict)
| DatasetPreview (transformed_ds : list alpaca).

(** What a run of the driver does, in order: the effects of the methods
    and its own prints. *)
Inductive output : Type :=
| Effect (ev : event)
| Shown (line : shown).

Record run_state : Type := {
  backend_calls : nat;
  outputs : list output
}.

Definition D (A : Type) : Type := env → run_state → (A + raised) * run_state.

#[export] Instance D_ret : MRet D := λ A a _ st, (inl a, st).

#[export] Instance D_bind : MBind D := λ A B f m E st,
  match m E st with
  | (inl a, st') => f a E st'
  | (inr e, st') => (inr e, st')
  end.

(** A call of a method, begun with the locals [locals]. *)
Definition call {L A} (m : M L A) (locals : L) : D A := λ E st,
  match m E {| calls := backend_calls st; trace := [] |} locals with
  | (r, w, _) =>
      (match r with
       | Return a => inl a
       | Raise e => inr (MethodError e)
       end,
       {| backend_calls := calls w;
          outputs := outputs st ++ (Effect <$> trace w) |})
  end.

Definition lift {A} (r : result A) : D A := λ _ st,
  (match r with
   | Return a => inl a
   | Raise e => inr (MethodError e)
   end, st).

Definition show (line : shown) : D unit := λ _ st,
  (inl (),
   {| backend_calls := backend_calls st;
      outputs := outputs st ++ [Shown line] |}).

(** [snail.extract_listings(result)] for a result that may be [None]. *)
Definition extract_listings_of (listings : option str) : D (list str) :=
  match listings with
  | Some text => mret (extract_listings text)
  | None => λ _ st, (inr (TypeError "expected string or bytes-like object"), st)
  end.

(** The instruction the driver assigns to [system_instruction_cot]; its
    lines are indented by four spaces. *)
Definition physics_instruction : str :=
  join nl
    [ py "You are a " ++ role
        ++ py " expert skilled at explaining difficult problems related to physics step by step, using a Chain of Thought (CoT) framework. Your response must include:";
      py "    - A thought process inside <thought></thought> tags, where you analyze the problem.";
      py "    - A final response inside <answer></answer> tags, solving the problem.";
      py "    Ensure your reasoning is clear and concise.";
      py "    " ].

(** [main()].  The key is what [getpass] returned; [max_output_tokens]
    takes its default, 2048. *)
Definition main (new_client : str → option exn) (google_api_key : str)
    : D unit :=
  snail ← lift (init new_client (Some google_api_key) (Some model_id)
                  (Some role) (Some user_query) (Some 2048%Z));
  result_of_serching ← call (searching snail) ();
  show (ResultOfSearching result_of_serching);;
  instruction ← extract_listings_of result_of_serching;
  show (TheInstructions instruction);;
  let snail := set_system_instruction_cot snail physics_instruction in
  output ← call (get_cot_result snail instruction delay) [];
  ds ← lift (create_ds instruction output);
  show (TheDataset ds);;
  '(saved_json_file, transformed_ds) ← call (transform_alpaca_format ds) [];
  show (DatasetPreview transformed_ds);;
  call (push_to_hf saved_json_file repo_id) ().

End SnailExample.

(* ===================================================================== *)
(** * Specifications *)
(* ===================================================================== *)

(** ** The numbered markers of [extract_listings], in words *)

(** [marker_at s body rest]: the text [s] begins with a newline, one or
    more digits, a period and one or more whitespace characters; [body] is
    what follows up to the end of the line, and [rest] is the text after
    it. *)
Inductive marker_at : str → str → str → Prop :=
| marker_at_intro (ds ws body rest : str) :
    ds ≠ [] → Forall (λ c, isdecimal c = true) ds →
    ws ≠ [] → Forall (λ c, isspace c = true) ws →
    nl ∉ body →
    (rest = [] ∨ head rest = Some nl) →
    marker_at (nl :: ds ++ "."%char :: ws ++ body ++ rest) body rest.

(** The whitespace of a marker is taken as long as possible: what follows
    it does not begin with a whitespace character. *)
Definition longest_whitespace (body rest : str) : Prop :=
  ∀ c, head (body ++ rest) = Some c → isspace c = false.

(** [occurrences s l]: [l] lists the bodies of the non-overlapping
    markers of [s], from left to right. *)
Inductive occurrences : str → list str → Prop :=
| occ_end : occurrences [] []
| occ_skip (c : ascii) (s : str) (l : list str) :
    (∀ body rest, ¬ marker_at (c :: s) body rest) →
    occurrences s l →
    occurrences (c :: s) l
| occ_match (s body rest : str) (l : list str) :
    marker_at s body rest →
    longest_whitespace body rest →
    occurrences rest l →
    occurrences s (body :: l).

(** The length of the longest prefix of [s] in the category [a]. *)
Fixpoint run (a : Re.category) (s : str) : nat :=
  match s with
  | c :: s' => if Re.category_match a c then S (run a s') else 0
  | [] => 0
  end.

(** The match of [marker_pattern] at the beginning of [s], computed
    without backtracking. *)
Definition marker_match (s : str) (pos : nat) : option (nat * list nat) :=
  match s with
  | c :: s1 =>
      if bool_decide (c = nl) then
        let nd := run Re.Digit s1 in
        match nd, drop nd s1 with
        | S _, d :: s2 =>
            if bool_decide (d = "."%char) then
              let nw := run Re.Space s2 in
              match nw with
              | S _ =>
                  let m0 := pos + (2 + nd + nw) in
                  let m1 := m0 + run Re.Any (drop nw s2) in
                  Some (m1, [m1; m0])
              | 0 => None
              end
            else None
        | _, _ => None
        end
      else None
  | [] => None
  end.

(** [trimmed body q]: [q] is [body] without its trailing whitespace, that
    is, [body] is [q] followed by whitespace characters only, and [q] does
    not end with a whitespace character. *)
Definition trimmed (body q : str) : Prop :=
  (∃ t, body = q ++ t ∧ Forall (λ c, isspace c = true) t)
  ∧ (∀ c, last q = Some c → isspace c = false).

(** The reading under which an extracted string stands on the line of its
    marker: [q] comes from a place of [text] where a newline, digits and a
    period are followed by whitespace without a newline and then by the
    rest of the line. *)
Definition same_line_marker (text q : str) : Prop :=
  ∃ pre ds sp body rest,
    text = pre ++ nl :: ds ++ "."%char :: sp ++ body ++ rest
    ∧ ds ≠ [] ∧ Forall (λ c, isdecimal c = true) ds
    ∧ sp ≠ [] ∧ Forall (λ c, isspace c = true) sp ∧ (nl ∉ sp)
    ∧ (nl ∉ body) ∧ q = rstrip body.

(** ** The generation calls, in words *)

(** The text of a successful call: the backend returned a response
    object. *)
Definition success_text (o : result (option response)) : option str :=
  match o with
  | Return (Some r) => Some (text r)
  | _ => None
  end.

(** The texts of the successful calls for the items [datas], in the order
    of the items; the item at index [i] is sent in the call number
    [n + i]. *)
Definition successful_texts (E : env) (self : snail) (n : nat)
    (datas : list str) : list str :=
  omap id
    (imap (λ i data, success_text (backend E (n + i) (cot_request self data)))
       datas).

(** The pauses recorded in a trace. *)
Definition sleeps (tr : list event) : list Z :=
  omap (λ ev, match ev with Sleep d => Some d | _ => None end) tr.

(** ** The dataset, in words *)

(** The flat record of an entry of the mapping. *)
Definition flat_record (entry : str * str) : alpaca :=
  {| instruction := entry.1; input := py ""; output := entry.2 |}.

(** The name of the file written at the time [now]. *)
Definition output_file_name (now : datetime) : str :=
  py "transformed_qa_" ++ strftime now ++ py ".json".

(** ** Sample inputs *)

(** A world in which nothing has happened yet, an instance of [Snail], and
    the environment whose backend answers every call with [outcome], whose
    file system and hub accept every request. *)
Definition fresh : world := {| calls := 0; trace := [] |}.

Definition a_snail : snail :=
  {| google_api_key := py "key";
     model_id := py "gemini";
     role := py "physicist";
     user_query := py "List 3 hard problems in physics";
     max_output_tokens := 2048;
     system_instruction_google_search := py "You are physicist expert";
     system_instruction_cot := py "You are a physicist expert" |}.

Definition an_env (outcome : result (option response)) : env :=
  {| backend := λ _ _, outcome;
     clock := {| year := 2025; month := 3; day := 7;
                 hour := 9; minute := 5; second := 0 |};
     fs_open_w := λ _, None;
     hub_create_repo := λ repo_id, Return (py "https://hub/" ++ repo_id);
     hub_push_card := λ _ _, None;
     hub_load_dataset := λ _, None;
     hub_push_dataset := λ _ _, None |}.

(** The same environment, with a hub that refuses the upload of the
    dataset. *)
Definition an_env_refusing_upload : env :=
  let E := an_env (Return None) in
  {| backend := backend E;
     clock := clock E;
     fs_open_w := fs_open_w E;
     hub_create_repo := hub_create_repo E;
     hub_push_card := hub_push_card E;
     hub_load_dataset := hub_load_dataset E;
     hub_push_dataset := λ _ _, Some (HubError "upload refused") |}.

(** A response, and the environment whose backend raises on its second
    call and answers the others with that response. *)
Definition a_response : response :=
  {| text := py "<thought>t</thought><answer>a</answer>";
     usage_metadata := py "total_token_count=42" |}.

Definition an_env_failing_once : env :=
  let E := an_env (Return (Some a_response)) in
  {| backend := λ n _,
       if bool_decide (n = 1) then Raise (APIError "quota")
       else Return (Some a_response);
     clock := clock E;
     fs_open_w := fs_open_w E;
     hub_create_repo := hub_create_repo E;
     hub_push_card := hub_push_card E;
     hub_load_dataset := hub_load_dataset E;
     hub_push_dataset := hub_push_dataset E |}.

(** Four texts: a numbered list, the same list without the leading
    newline, an item that begins on the line after its marker, and a list
    of three problems. *)
Definition listing_example : str :=
  nl :: py "1. Alpha" ++ nl :: py "2. Beta" ++ nl :: py "3. Gamma".

Definition listing_no_leading_newline : str :=
  py "1. Alpha" ++ nl :: py "2. Beta".

Definition listing_next_line : str :=
  nl :: py "1." ++ nl :: py "Alpha".

(** A list whose lines end with whitespace: two spaces and a carriage
    return after the first item, a space and a tab after the second. *)
Definition listing_trailing_whitespace : str :=
  nl :: py "1. Alpha  " ++ "013"%char
  :: nl :: py "2. Beta gamma " ++ ["009"%char].

Definition listing_problems : str :=
  nl :: py "1. Problem A" ++ nl :: py "2. Problem B"
  ++ nl :: py "3. Problem C".

(** ** More words and sample inputs *)

(** A numbered list in the format [extract_listings] expects: every entry
    is a newline, a number, a period, a space and the item. *)
Fixpoint numbered_list (entries : list (str * str)) : str :=
  match entries with
  | [] => []
  | (number, item) :: entries' =>
      nl :: number ++ "."%char :: " "%char :: item ++ numbered_list entries'
  end.

(** An item that the extraction gives back as it is: it is not empty, it
    has no newline, and it neither begins nor ends with a whitespace
    character. *)
Definition plain_item (item : str) : Prop :=
  item ≠ [] ∧ (nl ∉ item)
  ∧ (∀ c, head item = Some c → isspace c = false)
  ∧ (∀ c, last item = Some c → isspace c = false).

(** The elements of a list in the order in which they first occur. *)
Fixpoint first_occurrences (l : list str) : list str :=
  match l with
  | [] => []
  | x :: l' => x :: filter (λ y, y ≠ x) (first_occurrences l')
  end.

(** The requests sent to the backend in a trace. *)
Definition requests (tr : list event) : list request :=
  omap (λ ev, match ev with Generate req => Some req | _ => None end) tr.

(** The events of the generation methods: backend calls, prints and
    pauses. *)
Definition generation_event (ev : event) : Prop :=
  match ev with
  | Generate _ | Printed _ | Sleep _ => True
  | _ => False
  end.

(** The environment whose backend answers its first call with the list of
    three problems and the later calls with [outcome k], [k] counting the
    later calls from 0. *)
Definition an_env_listing (outcome : nat → result (option response)) : env :=
  let E := an_env (Return None) in
  {| backend := λ n _,
       match n with
       | 0 => Return (Some {| text := listing_problems;
                              usage_metadata := py "total_token_count=7" |})
       | S k => outcome k
       end;
     clock := clock E;
     fs_open_w := fs_open_w E;
     hub_create_repo := hub_create_repo E;
     hub_push_card := hub_push_card E;
     hub_load_dataset := hub_load_dataset E;
     hub_push_dataset := hub_push_dataset E |}.

(** The environment whose file system refuses to open files. *)
Definition an_env_read_only : env :=
  let E := an_env (Return None) in
  {| backend := backend E;
     clock := clock E;
     fs_open_w := λ _, Some (OSError "Read-only file system");
     hub_create_repo := hub_create_repo E;
     hub_push_card := hub_push_card E;
     hub_load_dataset := hub_load_dataset E;
     hub_push_dataset := hub_push_dataset E |}.

(** The environment whose hub refuses to create repositories. *)
Definition an_env_hub_down : env :=
  let E := an_env (Return None) in
  {| backend := backend E;
     clock := clock E;
     fs_open_w := fs_open_w E;
     hub_create_repo := λ _, Raise (HubError "401 Unauthorized");
     hub_push_card := hub_push_card E;
     hub_load_dataset := hub_load_dataset E;
     hub_push_dataset := hub_push_dataset E |}.

(** The instance the driver builds for a key, and the one it uses for the
    chain-of-thought calls, after it has assigned its own instruction. *)
Definition the_snail (key : str) : snail :=
  {| google_api_key := key;
     model_id := SnailExample.model_id;
     role := SnailExample.role;
     user_query := SnailExample.user_query;
     max_output_tokens := 2048;
     system_instruction_google_search :=
       google_search_instruction SnailExample.role;
     system_instruction_cot := cot_instruction SnailExample.role |}.

Definition the_physics_snail (key : str) : snail :=
  set_system_instruction_cot (the_snail key) SnailExample.physics_instruction.

(** The effects of the methods among the outputs of a run of the
    driver. *)
Definition effects (outs : list SnailExample.output) : list event :=
  omap (λ o, match o with SnailExample.Effect ev => Some ev | _ => None end)
    outs.

(** The state of a run of the driver that has not begun. *)
Definition not_begun : SnailExample.run_state :=
  {| SnailExample.backend_calls := 0; SnailExample.outputs := [] |}.

(* ===================================================================== *)
(** * The regular-expression engine on [marker_pattern] *)
(* ===================================================================== *)

Section engine.
Import Re.

Lemma run_le a s : run a s ≤ length s.
Proof. induction s as [|c s IH]; simpl; [lia|]. destruct (category_match a c); simpl; lia. Qed.

Lemma run_take a s : Forall (λ c, category_match a c = true) (take (run a s) s).
Proof.
  induction s as [|c s IH]; simpl; [constructor|].
  destruct (category_match a c) eqn:Hc; simpl; [|constructor].
  by constructor.
Qed.

Lemma run_drop_head a s c :
  head (drop (run a s) s) = Some c → category_match a c = false.
Proof.
  induction s as [|c' s IH]; simpl; [done|].
  destruct (category_match a c') eqn:Hc; simpl; [done|].
  intros [= ->]. done.
Qed.

Lemma run_lt_head a s n :
  n < run a s → ∃ c s', drop n s = c :: s' ∧ category_match a c = true.
Proof.
  revert n. induction s as [|c s IH]; simpl; intros n Hn; [lia|].
  destruct (category_match a c) eqn:Hc; [|lia].
  destruct n as [|n]; simpl; [eauto|]. apply IH. lia.
Qed.

Lemma run_app a l s :
  Forall (λ c, category_match a c = true) l →
  run a (l ++ s) = length l + run a s.
Proof.
  induction 1 as [|c l Hc _ IH]; simpl; [done|]. by rewrite Hc, IH.
Qed.

(** Greedy repetition without backtracking: when the rest of the pattern
    succeeds after the longest run, or fails after every shorter one,
    the result is the one after the longest run. *)
Lemma repeat_greedy_longest a k s pos marks :
  is_Some (k (drop (run a s) s) (pos + run a s) marks)
  ∨ (∀ n, n < run a s → k (drop n s) (pos + n) marks = None) →
  repeat_greedy a k s pos marks
  = k (drop (run a s) s) (pos + run a s) marks.
Proof.
  revert pos. induction s as [|c s IH]; intros pos H; simpl in *.
  - by rewrite Nat.add_0_r.
  - destruct (category_match a c) eqn:Hc; simpl in *.
    + replace (pos + S (run a s)) with (S pos + run a s) in * by lia.
      rewrite IH.
      * destruct (k (drop (run a s) s) (S pos + run a s) marks) eqn:Hk;
          [done|].
        destruct H as [[? [=]]|H].
        specialize (H 0 ltac:(lia)). simpl in H.
        by rewrite Nat.add_0_r in H.
      * destruct H as [H|H]; [by left|right].
        intros n Hn. specialize (H (S n) ltac:(lia)). simpl in H.
        by replace (S pos + n) with (pos + S n) by lia.
    + by rewrite Nat.add_0_r.
Qed.

Lemma sre_match_plus a p s pos marks :
  is_Some (sre_match p (drop (run a s) s) (pos + run a s) marks)
  ∨ (∀ n, n < run a s → sre_match p (drop n s) (pos + n) marks = None) →
  sre_match (Plus a :: p) s pos marks
  = match run a s with
    | 0 => None
    | S _ => sre_match p (drop (run a s) s) (pos + run a s) marks
    end.
Proof.
  intros H. destruct s as [|c s]; [done|]. simpl in *.
  destruct (category_match a c) eqn:Hc; [|done].
  replace (pos + S (run a s)) with (S pos + run a s) in * by lia.
  apply repeat_greedy_longest.
  destruct H as [H|H]; [by left|right].
  intros n Hn. specialize (H (S n) ltac:(lia)). simpl in H.
  by replace (S pos + n) with (pos + S n) by lia.
Qed.

(** The group and the end of the pattern: this part always matches. *)
Lemma sre_match_group s pos marks :
  sre_match [Mark; Star Any; Mark] s pos marks
  = Some (pos + run Any s, pos + run Any s :: pos :: marks).
Proof.
  change (sre_match [Mark; Star Any; Mark] s pos marks)
    with (repeat_greedy Any (sre_match [Mark]) s pos (pos :: marks)).
  rewrite repeat_greedy_longest; [done|by left].
Qed.

Lemma sre_match_space_group s pos marks :
  sre_match [Plus Space; Mark; Star Any; Mark] s pos marks
  = match run Space s with
    | 0 => None
    | S _ =>
        let m0 := pos + run Space s in
        let m1 := m0 + run Any (drop (run Space s) s) in
        Some (m1, m1 :: m0 :: marks)
    end.
Proof.
  rewrite sre_match_plus; [|left; by rewrite sre_match_group].
  by rewrite sre_match_group.
Qed.

(** A period does not match where a digit stands. *)
Lemma sre_match_period_on_digit p s n pos marks :
  n < run Digit s →
  sre_match (Char (Lit "."%char) :: p) (drop n s) pos marks = None.
Proof.
  intros Hn. destruct (run_lt_head Digit s n Hn) as (c & s' & -> & Hc).
  simpl. case_bool_decide as Heq; [|done]. by subst c.
Qed.

Lemma sre_match_marker s pos :
  sre_match marker_pattern s pos [] = marker_match s pos.
Proof.
  unfold marker_pattern, marker_match.
  destruct s as [|c s1]; [done|].
  change (sre_match (Char (Lit nl) :: ?p) (c :: s1) pos [])
    with (if bool_decide (c = nl) then sre_match p s1 (S pos) [] else None).
  destruct (bool_decide (c = nl)); [|done].
  rewrite sre_match_plus;
    [|right; intros n Hn; by apply sre_match_period_on_digit].
  destruct (run Digit s1) as [|nd] eqn:Hnd; [done|].
  destruct (drop (S nd) s1) as [|d s2]; [done|].
  change (sre_match (Char (Lit "."%char) :: ?p) (d :: s2) ?q [])
    with (if bool_decide (d = "."%char) then sre_match p s2 (S q) [] else None).
  destruct (bool_decide (d = "."%char)); [|done].
  rewrite sre_match_space_group.
  destruct (run Space s2) as [|nw] eqn:Hnw; [done|]. simpl.
  do 2 f_equal; [|f_equal; [|f_equal]]; lia.
Qed.

Lemma run_stop a s :
  (∀ c, head s = Some c → category_match a c = false) → run a s = 0.
Proof.
  destruct s as [|c s]; [done|]. intros H. simpl. by rewrite (H c).
Qed.

Lemma marker_match_Some s pos e marks :
  marker_match s pos = Some (e, marks) →
  ∃ ds ws body rest,
    s = nl :: ds ++ "."%char :: ws ++ body ++ rest
    ∧ marker_at s body rest
    ∧ longest_whitespace body rest
    ∧ e = pos + (2 + length ds + length ws + length body)
    ∧ marks = [e; pos + (2 + length ds + length ws)].
Proof.
  unfold marker_match. intros H.
  destruct s as [|c s1]; [done|].
  case_bool_decide as Hc; [subst c|done].
  destruct (run Digit s1) as [|nd] eqn:Hnd; [done|].
  destruct (drop (S nd) s1) as [|d s2] eqn:Hs2; [done|].
  case_bool_decide as Hd; [subst d|done].
  destruct (run Space s2) as [|nw] eqn:Hnw; [done|].
  injection H as <- <-.
  set (s3 := drop (S nw) s2).
  set (nb := run Any s3).
  assert (Hle1 := run_le Digit s1). assert (Hle2 := run_le Space s2).
  assert (Hle3 := run_le Any s3). fold nb in Hle3.
  assert (Hl1 : length (take (S nd) s1) = S nd) by (rewrite length_take; lia).
  assert (Hl2 : length (take (S nw) s2) = S nw) by (rewrite length_take; lia).
  assert (Hl3 : length (take nb s3) = nb) by (rewrite length_take; lia).
  assert (Heq : nl :: s1 = nl :: take (S nd) s1 ++ "."%char ::
                  take (S nw) s2 ++ take nb s3 ++ drop nb s3).
  { f_equal. rewrite <- (take_drop (S nd) s1) at 1. f_equal.
    rewrite Hs2. f_equal. rewrite <- (take_drop (S nw) s2) at 1. f_equal.
    by rewrite take_drop. }
  exists (take (S nd) s1), (take (S nw) s2), (take nb s3), (drop nb s3).
  split; [done|]. split; [|split; [|split]].
  - rewrite Heq. constructor.
    + intros E. rewrite E in Hl1. done.
    + rewrite <- Hnd. apply (run_take Digit).
    + intros E. rewrite E in Hl2. done.
    + rewrite <- Hnw. apply (run_take Space).
    + intros Hin. pose proof (run_take Any s3) as HF.
      rewrite Forall_forall in HF. specialize (HF nl Hin).
      by vm_compute in HF.
    + destruct (drop nb s3) as [|c r] eqn:Hr; [by left|right].
      pose proof (run_drop_head Any s3 c) as Hh. fold nb in Hh.
      rewrite Hr in Hh. specialize (Hh eq_refl). simpl in Hh.
      apply negb_false_iff, bool_decide_eq_true in Hh. by subst c.
  - intros c. rewrite take_drop. intros Hh.
    apply (run_drop_head Space s2 c). by rewrite Hnw.
  - rewrite Hl1, Hl2, Hl3. lia.
  - rewrite Hl1, Hl2. do 2 f_equal; lia.
Qed.

(** A marker whose whitespace is as long as possible is the match of
    the pattern. *)
Lemma marker_at_match ds ws body rest pos :
  ds ≠ [] → Forall (λ c, isdecimal c = true) ds →
  ws ≠ [] → Forall (λ c, isspace c = true) ws →
  nl ∉ body → (rest = [] ∨ head rest = Some nl) →
  longest_whitespace body rest →
  marker_match (nl :: ds ++ "."%char :: ws ++ body ++ rest) pos
  = Some (pos + (2 + length ds + length ws + length body),
          [pos + (2 + length ds + length ws + length body);
           pos + (2 + length ds + length ws)]).
Proof.
  intros Hds Hdig Hws Hsp Hnl Hend Hlong. unfold marker_match.
  rewrite bool_decide_eq_true_2 by done.
  rewrite (run_app Digit) by done. simpl run. rewrite Nat.add_0_r.
  destruct (length ds) as [|nd] eqn:Hnd; [by destruct ds|].
  rewrite <- Hnd, drop_app_length.
  rewrite bool_decide_eq_true_2 by done.
  rewrite (run_app Space) by done.
  rewrite (run_stop Space (body ++ rest)) by apply Hlong.
  rewrite Nat.add_0_r.
  destruct (length ws) as [|nw] eqn:Hnw; [by destruct ws|].
  rewrite <- Hnw, drop_app_length.
  assert (Hbody : Forall (λ c, category_match Any c = true) body).
  { apply Forall_forall. intros c Hc. simpl.
    apply negb_true_iff, bool_decide_eq_false. by intros ->. }
  assert (Hrest : run Any rest = 0).
  { apply run_stop. intros c Hc.
    destruct Hend as [->|Hend]; [done|].
    rewrite Hc in Hend. injection Hend as ->. done. }
  rewrite (run_app Any) by done. rewrite Hrest.
  match goal with
  | |- Some (?a, [_; ?c]) = Some (?a', [_; ?c']) =>
      replace a with a' by lia; replace c with c' by lia; done
  end.
Qed.

(** Where the pattern does not match, no marker begins. *)
Lemma marker_match_None s pos body rest :
  marker_match s pos = None → ¬ marker_at s body rest.
Proof.
  intros Hnone Hm. destruct Hm as [ds ws body rest Hds Hdig Hws Hsp _ _].
  unfold marker_match in Hnone.
  rewrite bool_decide_eq_true_2 in Hnone by done.
  rewrite (run_app Digit) in Hnone by done. simpl run in Hnone.
  rewrite Nat.add_0_r in Hnone.
  destruct (length ds) as [|nd] eqn:Hnd; [by destruct ds|].
  rewrite <- Hnd, drop_app_length in Hnone.
  rewrite bool_decide_eq_true_2 in Hnone by done.
  rewrite (run_app Space) in Hnone by done.
  destruct (length ws) as [|nw] eqn:Hnw; [by destruct ws|].
  done.
Qed.

Lemma search_None p s pos :
  search p s pos = None →
  ∀ n, n ≤ length s → sre_match p (drop n s) (pos + n) [] = None.
Proof.
  revert pos. induction s as [|c s IH]; intros pos H n Hn; simpl in *.
  - destruct (sre_match p [] pos []) as [[e ms]|] eqn:Hm; [done|].
    rewrite drop_nil. replace n with 0 by lia. by rewrite Nat.add_0_r.
  - destruct (sre_match p (c :: s) pos []) as [[e ms]|] eqn:Hm; [done|].
    destruct n as [|n]; simpl.
    + by rewrite Nat.add_0_r.
    + replace (pos + S n) with (S pos + n) by lia. apply IH; [done|lia].
Qed.

Lemma search_Some p s pos b e marks :
  search p s pos = Some (b, e, marks) →
  ∃ n, b = pos + n ∧ n ≤ length s
       ∧ sre_match p (drop n s) (pos + n) [] = Some (e, marks)
       ∧ ∀ m, m < n → sre_match p (drop m s) (pos + m) [] = None.
Proof.
  revert pos. induction s as [|c s IH]; intros pos H; simpl in *.
  - destruct (sre_match p [] pos []) as [[e' ms]|] eqn:Hm; [|done].
    injection H as <- <- <-. exists 0. rewrite Nat.add_0_r.
    repeat split; [done..|]. intros; lia.
  - destruct (sre_match p (c :: s) pos []) as [[e' ms]|] eqn:Hm.
    + injection H as <- <- <-. exists 0. rewrite Nat.add_0_r.
      repeat split; [simpl; lia|done|]. intros; lia.
    + destruct (IH _ H) as (n & -> & Hn & Hmatch & Hbefore).
      exists (S n). replace (pos + S n) with (S pos + n) by lia.
      repeat split; [simpl; lia|done|].
      intros [|m] Hlt; simpl.
      * by rewrite Nat.add_0_r.
      * replace (pos + S m) with (S pos + m) by lia. apply Hbefore. lia.
Qed.
End engine.

(* ===================================================================== *)
(** * [extract_listings] and the markers of the text *)
(* ===================================================================== *)

Lemma marker_at_nil body rest : ¬ marker_at [] body rest.
Proof. inversion 1. Qed.

Lemma occurrences_skip s n l :
  n ≤ length s →
  (∀ m, m < n → ∀ body rest, ¬ marker_at (drop m s) body rest) →
  occurrences (drop n s) l → occurrences s l.
Proof.
  revert s. induction n as [|n IH]; intros s Hn Hno Hocc; [done|].
  destruct s as [|c s]; simpl in *; [lia|].
  apply occ_skip.
  - intros body rest. apply (Hno 0). lia.
  - apply IH; [lia| |done]. intros m Hm. apply (Hno (S m)). lia.
Qed.

Lemma drop_marker_prefix (ds ws tail : str) :
  drop (2 + length ds + length ws) (nl :: ds ++ "."%char :: ws ++ tail) = tail.
Proof.
  simpl. rewrite <- Nat.add_succ_r.
  rewrite drop_app_add. simpl. by rewrite drop_app_length.
Qed.

Lemma findall_loop_occurrences fuel text pos :
  pos ≤ length text → length text - pos < fuel →
  occurrences (drop pos text) (Re.findall_loop fuel marker_pattern text pos).
Proof.
  revert pos. induction fuel as [|fuel IH]; intros pos Hpos Hfuel; [lia|].
  simpl.
  destruct (Re.search marker_pattern (drop pos text) pos)
    as [[[b e] marks]|] eqn:Hsearch.
  - apply search_Some in Hsearch as (n & -> & Hn & Hmatch & Hbefore).
    rewrite sre_match_marker in Hmatch.
    apply marker_match_Some in Hmatch
      as (ds & ws & body & rest & Hs & Hm & Hlong & He & ->).
    rewrite length_drop in Hn.
    assert (Hlen : length text - (pos + n)
                   = 2 + length ds + length ws + length body + length rest).
    { rewrite <- length_drop, <- drop_drop, Hs. simpl.
      rewrite !length_app. simpl. rewrite !length_app. lia. }
    assert (Hbody : Re.group1 text [e; pos + n + (2 + length ds + length ws)]
                    = body).
    { unfold Re.group1.
      rewrite <- (drop_drop text _ (pos + n)), <- (drop_drop text n pos), Hs.
      rewrite drop_marker_prefix.
      replace (e - (pos + n + (2 + length ds + length ws)))
        with (length body) by lia.
      by rewrite take_app_length. }
    assert (Hrest : drop e text = rest).
    { rewrite He.
      replace (pos + n + (2 + length ds + length ws + length body))
        with (pos + (n + ((2 + length ds + length ws) + length body))) by lia.
      rewrite <- (drop_drop text _ pos), <- (drop_drop _ _ n), Hs.
      rewrite <- drop_drop, drop_marker_prefix. by rewrite drop_app_length. }
    rewrite Hbody.
    apply (occurrences_skip _ n); [rewrite length_drop; lia| |].
    + intros m Hlt body' rest'. apply (marker_match_None _ (pos + m)).
      rewrite <- sre_match_marker. by apply Hbefore.
    + apply (occ_match _ body rest); [done..|].
      rewrite <- Hrest. apply IH; lia.
  - apply (occurrences_skip _ (length (drop pos text))); [done| |].
    + intros m Hlt body rest. apply (marker_match_None _ (pos + m)).
      rewrite <- sre_match_marker. apply search_None; [done|lia].
    + rewrite drop_all. constructor.
Qed.

Lemma marker_at_suffix s body rest :
  marker_at s body rest → ∃ k, k ≤ length s ∧ drop k s = rest.
Proof.
  destruct 1 as [ds ws body rest _ _ _ _ _ _].
  exists (2 + length ds + length ws + length body). split.
  - simpl. rewrite !length_app. simpl. rewrite !length_app. lia.
  - rewrite <- drop_drop, drop_marker_prefix. by rewrite drop_app_length.
Qed.

Lemma marker_at_unique s body1 rest1 body2 rest2 :
  marker_at s body1 rest1 → longest_whitespace body1 rest1 →
  marker_at s body2 rest2 → longest_whitespace body2 rest2 →
  body1 = body2 ∧ rest1 = rest2.
Proof.
  intros H1 L1 H2 L2.
  destruct H1 as [ds1 ws1 body1 rest1 A1 B1 C1 D1 E1 F1].
  inversion H2 as [ds2 ws2 b r A2 B2 C2 D2 E2 F2 Heq Hb Hr]. subst b r.
  pose proof (marker_at_match ds1 ws1 body1 rest1 0 A1 B1 C1 D1 E1 F1 L1) as M1.
  pose proof (marker_at_match ds2 ws2 body2 rest2 0 A2 B2 C2 D2 E2 F2 L2) as M2.
  rewrite Heq in M2. rewrite M1 in M2. injection M2 as Hlen _ Hpre.
  pose proof (drop_marker_prefix ds1 ws1 (body1 ++ rest1)) as P1.
  pose proof (drop_marker_prefix ds2 ws2 (body2 ++ rest2)) as P2.
  rewrite Heq in P2.
  replace (2 + length ds2 + length ws2) with (2 + length ds1 + length ws1)
    in P2 by lia.
  rewrite P1 in P2. apply app_inj_1 in P2; [done|lia].
Qed.

Lemma occurrences_unique s l1 l2 :
  occurrences s l1 → occurrences s l2 → l1 = l2.
Proof.
  intros H1. revert l2.
  induction H1 as [|c s l Hno _ IH|s body rest l Hm Hlong _ IH];
    intros l2 H2.
  - inversion H2 as [| |s' body rest l' Hm]; subst; [done|].
    by apply marker_at_nil in Hm.
  - inversion H2 as [|c' s' l' _ Hocc|s' body rest l' Hm]; subst.
    + by apply IH.
    + by apply Hno in Hm.
  - inversion H2 as [|c' s' l' Hno Hocc|s' body' rest' l' Hm' Hlong' Hocc];
      subst.
    + by apply marker_at_nil in Hm.
    + by apply Hno in Hm.
    + destruct (marker_at_unique _ _ _ _ _ Hm Hlong Hm' Hlong') as [-> ->].
      f_equal. by apply IH.
Qed.

Lemma occurrences_findall text :
  occurrences text (Re.findall marker_pattern text).
Proof.
  unfold Re.findall.
  apply (findall_loop_occurrences (S (length text)) text 0); lia.
Qed.

Lemma occurrences_elem s l body :
  occurrences s l → body ∈ l →
  ∃ n rest, n ≤ length s ∧ marker_at (drop n s) body rest
            ∧ longest_whitespace body rest.
Proof.
  induction 1 as [|c s l Hno _ IH|s b rest l Hm Hlong _ IH]; intros Hin.
  - by apply elem_of_nil in Hin.
  - destruct (IH Hin) as (n & rest & Hn & Hm & Hlong).
    exists (S n), rest. simpl. split; [lia|done].
  - apply elem_of_cons in Hin as [->|Hin].
    + exists 0, rest. split; [lia|done].
    + destruct (IH Hin) as (n & rest' & Hn & Hm' & Hlong').
      destruct (marker_at_suffix _ _ _ Hm) as (k & Hk & <-).
      exists (k + n), rest'. rewrite length_drop in Hn.
      rewrite drop_drop in Hm'. split; [lia|done].
Qed.

(** ** [rstrip] *)

Lemma drop_while_suffix f s : ∃ t, s = t ++ drop_while f s.
Proof.
  induction s as [|c s [t IH]]; simpl; [by exists []|].
  destruct (f c); [|by exists []].
  exists (c :: t). simpl. by f_equal.
Qed.

Lemma rstrip_prefix s : ∃ t, s = rstrip s ++ t.
Proof.
  unfold rstrip. destruct (drop_while_suffix isspace (reverse s)) as [t Ht].
  exists (reverse t).
  rewrite <- reverse_app, <- Ht. by rewrite reverse_involutive.
Qed.

Lemma drop_while_head f s c : head (drop_while f s) = Some c → f c = false.
Proof.
  induction s as [|c' s IH]; simpl; [done|].
  destruct (f c') eqn:Hc; [done|]. by intros [= <-].
Qed.

Lemma drop_while_dropped f s :
  ∃ t, s = t ++ drop_while f s ∧ Forall (λ c, f c = true) t.
Proof.
  induction s as [|c s (t & IH & Ht)]; simpl.
  - by exists [].
  - destruct (f c) eqn:Hc; [|by exists []].
    exists (c :: t). simpl. split; [by f_equal|by constructor].
Qed.

(** [rstrip s] is [s] without a final run of whitespace, and it does not
    end with a whitespace character. *)
Lemma rstrip_spec s :
  (∃ t, s = rstrip s ++ t ∧ Forall (λ c, isspace c = true) t)
  ∧ (∀ c, last (rstrip s) = Some c → isspace c = false).
Proof.
  unfold rstrip. split.
  - destruct (drop_while_dropped isspace (reverse s)) as (t & Ht & Hsp).
    exists (reverse t). split.
    + rewrite <- reverse_app, <- Ht. by rewrite reverse_involutive.
    + by apply Forall_reverse.
  - intros c. rewrite last_reverse. apply drop_while_head.
Qed.

Lemma rstrip_not_elem c s : c ∉ s → c ∉ rstrip s.
Proof.
  intros Hc Hin. apply Hc. destruct (rstrip_prefix s) as [t Ht].
  rewrite Ht. apply elem_of_app. by left.
Qed.

(** ** The claims about [extract_listings] *)

Lemma trimmed_rstrip s : trimmed s (rstrip s).
Proof. apply rstrip_spec. Qed.

(** A string has one trimmed form only. *)
Lemma trimmed_unique body q1 q2 : trimmed body q1 → trimmed body q2 → q1 = q2.
Proof.
  assert (Hone : ∀ q q' t t' : str,
            q ++ t = q' ++ t' → Forall (λ c, isspace c = true) t →
            (∀ c, last q' = Some c → isspace c = false) →
            ∃ k, q = q' ++ k).
  { intros q q' t t' Heq Ht Hlast.
    apply app_eq_inv in Heq as [(k & -> & _)|(k & -> & ->)]; [by exists k|].
    exists []. rewrite app_nil_r.
    destruct k as [|c k _] using rev_ind; [by rewrite app_nil_r|].
    exfalso. rewrite !Forall_app, Forall_singleton in Ht.
    destruct Ht as [[_ Hc] _].
    specialize (Hlast c). rewrite app_assoc, last_snoc in Hlast.
    specialize (Hlast eq_refl). congruence. }
  intros [(t1 & -> & Ht1) Hl1] [(t2 & Heq & Ht2) Hl2].
  destruct (Hone q1 q2 t1 t2 Heq Ht1 Hl2) as [k1 Hk1].
  destruct (Hone q2 q1 t2 t1 (eq_sym Heq) Ht2 Hl1) as [k2 Hk2].
  rewrite Hk2, <- app_assoc in Hk1.
  rewrite <- (app_nil_r q1) in Hk1 at 1.
  apply app_inv_head in Hk1. symmetry in Hk1.
  apply app_eq_nil in Hk1 as [-> _]. by rewrite app_nil_r in Hk2.
Qed.

Lemma trimmed_fmap_rstrip (l : list str) : Forall2 trimmed l (rstrip <$> l).
Proof.
  induction l as [|body l IH]; csimpl; constructor; [|done].
  apply trimmed_rstrip.
Qed.

Lemma trimmed_fmap_rstrip_unique (l qs : list str) :
  Forall2 trimmed l qs → rstrip <$> l = qs.
Proof.
  induction 1 as [|body q l qs Hq _ IH]; csimpl; [done|].
  f_equal; [|done]. exact (trimmed_unique body _ _ (trimmed_rstrip body) Hq).
Qed.

(** C5.  [extract_listings] returns the bodies of the non-overlapping
    markers of the text (a newline, one or more digits, a period,
    whitespace, then the rest of the line), from left to right, each
    without its trailing whitespace: every returned string is the body
    cut before its final run of whitespace, and does not end with a
    whitespace character.  The function is total, the list it returns is
    the only one of this kind; where no marker begins anywhere the result
    is empty; the numbered list gives Alpha, Beta, Gamma, without the
    leading newline the first marker is not matched, and the spaces, the
    tab and the carriage return at the end of a line are left out. *)
Theorem extract_listings_occurrences :
  (∀ text, ∃ l, occurrences text l ∧ Forall2 trimmed l (extract_listings text))
  ∧ (∀ text l qs,
       occurrences text l → Forall2 trimmed l qs → extract_listings text = qs)
  ∧ (∀ text, (∀ n body rest, ¬ marker_at (drop n text) body rest) →
             extract_listings text = [])
  ∧ extract_listings listing_example = [py "Alpha"; py "Beta"; py "Gamma"]
  ∧ extract_listings listing_no_leading_newline = [py "Beta"]
  ∧ extract_listings listing_trailing_whitespace
    = [py "Alpha"; py "Beta gamma"].
Proof.
  split; [|split; [|split; [|split; [|split]]]].
  - intros text. exists (Re.findall marker_pattern text).
    split; [apply occurrences_findall|apply trimmed_fmap_rstrip].
  - intros text l qs Hl Hqs. unfold extract_listings.
    rewrite <- (occurrences_unique _ _ _ Hl (occurrences_findall text)).
    by apply trimmed_fmap_rstrip_unique.
  - intros text Hno. unfold extract_listings.
    assert (Hnil : occurrences text []).
    { apply (occurrences_skip _ (length text)); [done| |].
      - intros m _ body rest. apply Hno.
      - rewrite drop_all. constructor. }
    by rewrite (occurrences_unique _ _ _ (occurrences_findall text) Hnil).
  - by vm_compute.
  - by vm_compute.
  - by vm_compute.
Qed.

Lemma extract_listings_occurrences_witness :
  let bodies := [py "Alpha  " ++ ["013"%char];
                 py "Beta gamma " ++ ["009"%char]] in
  occurrences listing_trailing_whitespace bodies
  ∧ Forall2 trimmed bodies [py "Alpha"; py "Beta gamma"]
  ∧ extract_listings listing_trailing_whitespace
    = [py "Alpha"; py "Beta gamma"].
Proof.
  assert (H : occurrences listing_trailing_whitespace
                [py "Alpha  " ++ ["013"%char];
                 py "Beta gamma " ++ ["009"%char]]).
  { replace [py "Alpha  " ++ ["013"%char]; py "Beta gamma " ++ ["009"%char]]
      with (Re.findall marker_pattern listing_trailing_whitespace)
      by (by vm_compute).
    apply occurrences_findall. }
  assert (Ht : Forall2 trimmed
                 [py "Alpha  " ++ ["013"%char];
                  py "Beta gamma " ++ ["009"%char]]
                 [py "Alpha"; py "Beta gamma"]).
  { repeat constructor.
    - by exists (py "  " ++ ["013"%char]); split; [|repeat constructor].
    - by intros c [= <-].
    - by exists (py " " ++ ["009"%char]); split; [|repeat constructor].
    - by intros c [= <-]. }
  split; [exact H|]. split; [exact Ht|].
  exact (proj1 (proj2 extract_listings_occurrences) _ _ _ H Ht).
Defined.

(** C4, as stated, fails: in the text of a marker followed directly by a
    newline, the string Alpha is extracted, and it does not stand on the
    line of a marker. *)
Lemma extract_listings_same_line_counterexample :
  py "Alpha" ∈ extract_listings listing_next_line
  ∧ ¬ same_line_marker listing_next_line (py "Alpha").
Proof.
  split.
  - replace (extract_listings listing_next_line) with [py "Alpha"]
      by (by vm_compute).
    by apply list_elem_of_singleton.
  - intros (pre & ds & sp & body & rest & Heq & _ & _ & Hsp & _ & Hnl & _).
    destruct sp as [|c sp]; [done|].
    apply not_elem_of_cons in Hnl as [Hc _].
    set (i := length (pre ++ nl :: ds)).
    assert (H1 : listing_next_line !! i = Some "."%char).
    { rewrite Heq.
      replace (pre ++ nl :: ds ++ "."%char :: (c :: sp) ++ body ++ rest)
        with ((pre ++ nl :: ds) ++ "."%char :: (c :: sp) ++ body ++ rest)
        by (by rewrite <- app_assoc).
      by apply list_lookup_middle. }
    assert (H2 : listing_next_line !! S i = Some c).
    { rewrite Heq.
      replace (pre ++ nl :: ds ++ "."%char :: (c :: sp) ++ body ++ rest)
        with (((pre ++ nl :: ds) ++ ["."%char]) ++ c :: sp ++ body ++ rest)
        by (by rewrite <- !app_assoc).
      apply list_lookup_middle. rewrite length_app. simpl. lia. }
    clearbody i. clear Heq.
    do 9 (destruct i as [|i];
          [vm_compute in H1, H2; try discriminate H1;
           injection H2 as <-; by destruct Hc|]).
    by vm_compute in H1.
Qed.

(** C4, amended.  After the period the pattern takes one or more
    whitespace characters, which may be newlines; every extracted string
    is the rest of the line at which that whitespace ends, without its
    trailing whitespace, and contains no newline. *)
Theorem extract_listings_rest_of_line (text q : str) :
  q ∈ extract_listings text →
  (nl ∉ q)
  ∧ ∃ n body rest,
      n ≤ length text
      ∧ marker_at (drop n text) body rest
      ∧ longest_whitespace body rest
      ∧ q = rstrip body.
Proof.
  unfold extract_listings. intros Hq.
  apply list_elem_of_fmap in Hq as (body & -> & Hbody).
  destruct (occurrences_elem _ _ _ (occurrences_findall text) Hbody)
    as (n & rest & Hn & Hm & Hlong).
  split.
  - apply rstrip_not_elem. by inversion Hm.
  - by exists n, body, rest.
Qed.

Lemma extract_listings_rest_of_line_witness :
  py "Alpha" ∈ extract_listings listing_next_line
  ∧ (nl ∉ py "Alpha")
  ∧ ∃ n body rest,
      n ≤ length listing_next_line
      ∧ marker_at (drop n listing_next_line) body rest
      ∧ longest_whitespace body rest
      ∧ py "Alpha" = rstrip body.
Proof.
  assert (H : py "Alpha" ∈ extract_listings listing_next_line).
  { apply (bool_decide_unpack _). vm_compute. exact I. }
  split; [exact H|].
  exact (extract_listings_rest_of_line listing_next_line (py "Alpha") H).
Defined.

(* ===================================================================== *)
(** * The generation calls: [searching] and [get_cot_result] *)
(* ===================================================================== *)

(** Unfold the operations of the monad. *)
Ltac run_M :=
  repeat progress
    (unfold mbind, M_bind, mret, M_ret, try_catch, raise, emit, print,
       get_local, set_local, generate_content, attr, lift_result,
       lift_failure, with_env, sleep; simpl).

(** What one turn of the loop of [get_cot_result] does, by outcome of the
    backend call. *)
Lemma cot_item_run E self delay data w results :
  cot_item self delay data E w results
  = let req := cot_request self data in
    let after evs :=
      {| calls := S (calls w); trace := trace w ++ Generate req :: evs |} in
    match backend E (calls w) req with
    | Return (Some r) =>
        let report := Printed (CotReport data (text r) (usage_metadata r)) in
        if bool_decide (delay < 0)%Z
        then (Return (),
              after [report;
                     Printed (CotError data
                              (ValueError "sleep length must be non-negative"))],
              results ++ [text r])
        else (Return (), after [report; Sleep delay], results ++ [text r])
    | Return None =>
        (Return (),
         after [Printed (CotError data
                  (AttributeError
                     "'NoneType' object has no attribute 'text'"))],
         results)
    | Raise e => (Return (), after [Printed (CotError data e)], results)
    end.
Proof.
  unfold cot_item. run_M.
  destruct (backend E (calls w) (cot_request self data)) as [[r|]|e]; simpl.
  - case_bool_decide; run_M; rewrite <- !app_assoc; done.
  - rewrite <- !app_assoc; done.
  - rewrite <- !app_assoc; done.
Qed.

Lemma successful_texts_cons E self n data datas :
  successful_texts E self n (data :: datas)
  = match success_text (backend E n (cot_request self data)) with
    | Some t => t :: successful_texts E self (S n) datas
    | None => successful_texts E self (S n) datas
    end.
Proof.
  unfold successful_texts. rewrite imap_cons. simpl. rewrite Nat.add_0_r.
  assert (Hext : imap ((λ i d, success_text (backend E (n + i) (cot_request self d))) ∘ S) datas
                 = imap (λ i d, success_text (backend E (S n + i) (cot_request self d))) datas).
  { apply imap_ext. intros i d _. simpl. by rewrite Nat.add_succ_r. }
  rewrite Hext. by destruct (success_text _).
Qed.

Lemma successful_texts_length E self n datas :
  length (successful_texts E self n datas) ≤ length datas.
Proof.
  revert n. induction datas as [|data datas IH]; intros n; [done|].
  rewrite successful_texts_cons. specialize (IH (S n)).
  destruct (success_text _); simpl; lia.
Qed.

Lemma sleeps_app tr1 tr2 : sleeps (tr1 ++ tr2) = sleeps tr1 ++ sleeps tr2.
Proof. apply omap_app. Qed.

(** The loop of [get_cot_result]: it never raises, it makes one call per
    item, it appends the texts of the successful calls, and it pauses once
    per appended text. *)
Lemma for_each_cot_item E self delay datas w results :
  ∃ w',
    for_each datas (cot_item self delay) E w results
    = (Return (), w', results ++ successful_texts E self (calls w) datas)
    ∧ calls w' = calls w + length datas
    ∧ ((0 ≤ delay)%Z →
       sleeps (trace w')
       = sleeps (trace w)
         ++ replicate (length (successful_texts E self (calls w) datas)) delay).
Proof.
  revert w results. induction datas as [|data datas IH]; intros w results.
  - exists w. simpl. rewrite !app_nil_r. by rewrite Nat.add_0_r.
  - simpl for_each. unfold mbind at 1, M_bind at 1.
    rewrite cot_item_run, successful_texts_cons. cbv zeta.
    destruct (backend E (calls w) (cot_request self data)) as [[r|]|e];
      simpl success_text.
    + case_bool_decide as Hdelay.
      * edestruct IH as (w' & -> & Hcalls & Hsleeps). exists w'.
        simpl in *. rewrite <- app_assoc. split; [done|]. split; [lia|].
        intros; lia.
      * edestruct IH as (w' & -> & Hcalls & Hsleeps). exists w'.
        simpl in *. rewrite <- app_assoc. split; [done|]. split; [lia|].
        intros H0. rewrite (Hsleeps H0), sleeps_app. simpl.
        by rewrite <- app_assoc.
    + edestruct IH as (w' & -> & Hcalls & Hsleeps). exists w'.
      simpl in *. split; [done|]. split; [lia|].
      intros H0. rewrite (Hsleeps H0), sleeps_app. simpl.
      by rewrite app_nil_r.
    + edestruct IH as (w' & -> & Hcalls & Hsleeps). exists w'.
      simpl in *. split; [done|]. split; [lia|].
      intros H0. rewrite (Hsleeps H0), sleeps_app. simpl.
      by rewrite app_nil_r.
Qed.

Lemma get_cot_result_run E self datas delay w l :
  ∃ w',
    get_cot_result self datas delay E w l
    = (Return (successful_texts E self (calls w) datas), w',
       successful_texts E self (calls w) datas)
    ∧ calls w' = calls w + length datas
    ∧ ((0 ≤ delay)%Z →
       sleeps (trace w')
       = sleeps (trace w)
         ++ replicate (length (successful_texts E self (calls w) datas)) delay).
Proof.
  destruct (for_each_cot_item E self delay datas w []) as (w' & Hrun & H).
  exists w'. split; [|done].
  unfold get_cot_result. run_M. by rewrite Hrun.
Qed.

(** C1.  [get_cot_result] returns the texts of the successful backend
    calls, one per successful call and in the order of the input items;
    the items whose call fails leave nothing in the list, so the list is
    at most as long as the input, and it is strictly shorter when a call
    fails. *)
Theorem get_cot_result_successes :
  (∀ E self datas delay w l,
     (get_cot_result self datas delay E w l).1.1
     = Return (successful_texts E self (calls w) datas)
     ∧ length (successful_texts E self (calls w) datas) ≤ length datas)
  ∧ (∀ E self n data datas,
       successful_texts E self n (data :: datas)
       = match backend E n (cot_request self data) with
         | Return (Some r) => text r :: successful_texts E self (S n) datas
         | _ => successful_texts E self (S n) datas
         end)
  ∧ (∃ E self datas delay w l,
       (get_cot_result self datas delay E w l).1.1 = Return []
       ∧ 0 < length datas).
Proof.
  split; [|split].
  - intros E self datas delay w l.
    destruct (get_cot_result_run E self datas delay w l) as (w' & -> & _).
    split; [done|]. apply successful_texts_length.
  - intros E self n data datas. rewrite successful_texts_cons.
    by destruct (backend E n (cot_request self data)) as [[r|]|e].
  - exists (an_env (Raise (APIError "quota"))), a_snail, [py "Problem A"], 5%Z,
      fresh, [].
    split; [by vm_compute|simpl; lia].
Qed.

(** C3.  The pause is skipped after a failed call: for one item whose
    backend call raises, [get_cot_result] with a delay of 5 seconds calls
    the backend, prints the error and returns, and no pause is in the
    trace. *)
Theorem get_cot_result_failed_call_no_pause :
  let run :=
    get_cot_result a_snail [py "Problem A"] 5
      (an_env (Raise (APIError "quota"))) fresh [] in
  run.1.1 = Return []
  ∧ trace run.1.2
    = [Generate (cot_request a_snail (py "Problem A"));
       Printed (CotError (py "Problem A") (APIError "quota"))]
  ∧ sleeps (trace run.1.2) = [].
Proof. by vm_compute. Qed.

(** In general the pauses of [get_cot_result] are as many as the texts it
    returns, not as many as the items. *)
Lemma get_cot_result_pauses E self datas delay w l :
  (0 ≤ delay)%Z →
  let run := get_cot_result self datas delay E w l in
  sleeps (trace run.1.2)
  = sleeps (trace w)
    ++ replicate (length (successful_texts E self (calls w) datas)) delay.
Proof.
  intros Hdelay.
  destruct (get_cot_result_run E self datas delay w l) as (w' & -> & _ & H).
  by apply H.
Qed.

Lemma searching_run E self w :
  searching self E w ()
  = let req := search_request self in
    let after evs :=
      {| calls := S (calls w); trace := trace w ++ Generate req :: evs |} in
    match backend E (calls w) req with
    | Return (Some r) => (Return (Some (text r)), after [], ())
    | Return None =>
        (Return None,
         after [Printed (SearchError
                  (AttributeError
                     "'NoneType' object has no attribute 'text'"))],
         ())
    | Raise e => (Return None, after [Printed (SearchError e)], ())
    end.
Proof.
  unfold searching. run_M.
  destruct (backend E (calls w) (search_request self)) as [[r|]|e]; simpl;
    rewrite <- ?app_assoc; done.
Qed.

(** C8.  [searching] never raises; when the backend call raises [e], the
    error is printed and the method returns [None]. *)
Theorem searching_catches_backend_failure :
  (∀ E self w, ∃ v w', searching self E w () = (Return v, w', ()))
  ∧ (∀ E self w e,
       backend E (calls w) (search_request self) = Raise e →
       searching self E w ()
       = (Return None,
          {| calls := S (calls w);
             trace := trace w ++ [Generate (search_request self);
                                  Printed (SearchError e)] |},
          ())).
Proof.
  split.
  - intros E self w. rewrite searching_run. cbv zeta.
    destruct (backend E (calls w) (search_request self)) as [[r|]|e]; eauto.
  - intros E self w e He. rewrite searching_run. cbv zeta. by rewrite He.
Qed.

Lemma searching_catches_backend_failure_witness :
  backend (an_env (Raise (APIError "quota"))) (calls fresh)
    (search_request a_snail) = Raise (APIError "quota")
  ∧ searching a_snail (an_env (Raise (APIError "quota"))) fresh ()
    = (Return None,
       {| calls := 1;
          trace := [Generate (search_request a_snail);
                    Printed (SearchError (APIError "quota"))] |},
       ()).
Proof.
  split; [reflexivity|].
  exact (proj2 searching_catches_backend_failure
           (an_env (Raise (APIError "quota"))) a_snail fresh
           (APIError "quota") eq_refl).
Defined.

(* ===================================================================== *)
(** * Publishing: [push_to_hf] *)
(* ===================================================================== *)

(** C9.  [push_to_hf] raises exactly when [json_path] or [repo_id] is
    empty, and then it raises a [ValueError] before doing anything.  When
    both are non-empty it returns normally, whatever the hub answers: a
    failure of the repository creation, of the publication of the card or
    of the upload of the dataset ends in the printed error, and a run
    without failure in the printed address of the repository. *)
Theorem push_to_hf_swallows_failures E w json_path repo_id :
  let run := push_to_hf json_path repo_id E w () in
  ((∃ e, run.1.1 = Raise e) ↔ json_path = [] ∨ repo_id = [])
  ∧ (∀ e, run.1.1 = Raise e → (∃ msg, e = ValueError msg) ∧ run.1.2 = w)
  ∧ (json_path ≠ [] → repo_id ≠ [] →
     run.1.1 = Return ()
     ∧ (∀ e, hub_create_repo E repo_id = Raise e →
             last (trace run.1.2) = Some (Printed (PushError e)))
     ∧ (∀ url username name,
          hub_create_repo E repo_id = Return url →
          split "/"%char repo_id = [username; name] →
          (∀ e, hub_push_card E repo_id (dataset_card username) = Some e →
                last (trace run.1.2) = Some (Printed (PushError e)))
          ∧ (hub_push_card E repo_id (dataset_card username) = None →
             (∀ e, hub_load_dataset E json_path = Some e →
                   last (trace run.1.2) = Some (Printed (PushError e)))
             ∧ (hub_load_dataset E json_path = None →
                (∀ e, hub_push_dataset E json_path repo_id = Some e →
                      last (trace run.1.2) = Some (Printed (PushError e)))
                ∧ (hub_push_dataset E json_path repo_id = None →
                   last (trace run.1.2) = Some (Printed (PushDone url))))))).
Proof.
  unfold push_to_hf.
  case_bool_decide as Hpath.
  { run_M. split; [|split].
    - split; [by left|eauto].
    - intros e [= <-]. eauto.
    - done. }
  case_bool_decide as Hrepo.
  { run_M. split; [|split].
    - split; [by right|eauto].
    - intros e [= <-]. eauto.
    - done. }
  unfold create_repo, unpack2, card_push_to_hub, load_dataset,
    dataset_push_to_hub. run_M.
  destruct (hub_create_repo E repo_id) as [url|e0] eqn:Hcreate; simpl.
  2:{ split; [|split].
      - split; [by intros [e [=]]|by intros [?|?]].
      - by intros e [=].
      - intros _ _. split; [done|]. split.
        + intros e [= <-]. by rewrite last_snoc.
        + by intros url username name [=]. }
  destruct (split "/"%char repo_id) as [|username [|name [|more parts]]]
    eqn:Hsplit; run_M.
  1,2,4:
    (split; [|split];
     [split; [by intros [e [=]]|by intros [?|?]]
     |by intros e [=]
     |intros _ _; split; [done|]; split;
      [by intros e [=]|by intros url' username' name' _ [=]]]).
  destruct (hub_push_card E repo_id (dataset_card username)) as [e1|]
    eqn:Hcard; run_M;
  [|destruct (hub_load_dataset E json_path) as [e2|] eqn:Hload; run_M;
    [|destruct (hub_push_dataset E json_path repo_id) as [e3|] eqn:Hpush;
      run_M]].
  all: split; [|split];
    [split; [by intros [e [=]]|by intros [?|?]]
    |by intros e [=]
    |intros _ _; split; [done|]; split; [by intros e [=]|]].
  all: intros url' username' name' [= <-] [= <- <-].
  all: rewrite ?Hcard, ?Hload, ?Hpush.
  all: repeat split; intros; simplify_eq; by rewrite ?last_snoc.
Qed.

Lemma push_to_hf_swallows_failures_witness :
  py "data.json" ≠ [] ∧ py "user/repo" ≠ []
  ∧ (push_to_hf (py "data.json") (py "user/repo")
       an_env_refusing_upload fresh ()).1.1 = Return ()
  ∧ last (trace (push_to_hf (py "data.json") (py "user/repo")
                   an_env_refusing_upload fresh ()).1.2)
    = Some (Printed (PushError (HubError "upload refused"))).
Proof.
  assert (Hpath : py "data.json" ≠ []) by (by vm_compute).
  assert (Hrepo : py "user/repo" ≠ []) by (by vm_compute).
  split; [exact Hpath|]. split; [exact Hrepo|].
  pose proof (push_to_hf_swallows_failures an_env_refusing_upload fresh
                (py "data.json") (py "user/repo")) as H.
  cbv zeta in H. destruct H as (_ & _ & H).
  destruct (H Hpath Hrepo) as (Hret & _ & Hsteps).
  split; [exact Hret|].
  destruct (Hsteps (py "https://hub/user/repo") (py "user") (py "repo")
              eq_refl eq_refl) as (_ & Hcard).
  destruct (Hcard eq_refl) as (_ & Hload).
  destruct (Hload eq_refl) as (Hpush & _).
  exact (Hpush (HubError "upload refused") eq_refl).
Defined.

(* ===================================================================== *)
(** * The dataset: [transform_alpaca_format] *)
(* ===================================================================== *)

(** The loop of [transform_alpaca_format] appends the flat record of every
    entry, in the order of the entries. *)
Lemma for_each_transformed_pair (entries : list (str * str)) E w acc :
  for_each entries (λ '(instruction, output),
    let transformed_pair :=
      {| instruction := instruction; input := py ""; output := output |} in
    transformed_data ← get_local;
    set_local (transformed_data ++ [transformed_pair])) E w acc
  = (Return (), w, acc ++ (flat_record <$> entries)).
Proof.
  revert acc. induction entries as [|[k v] entries IH]; intros acc.
  - simpl. by rewrite app_nil_r.
  - simpl for_each. run_M. rewrite IH. unfold flat_record at 2. simpl.
    by rewrite <- app_assoc.
Qed.

Lemma transform_alpaca_format_run dataset E w l :
  transform_alpaca_format dataset E w l
  = let file := output_file_name (clock E) in
    let data := flat_record <$> PyDict.items dataset in
    match fs_open_w E file with
    | Some e => (Raise e, w, data)
    | None =>
        (Return (file, data),
         {| calls := calls w; trace := trace w ++ [WriteJson file data] |},
         data)
    end.
Proof.
  unfold transform_alpaca_format. unfold mbind at 1 2, M_bind at 1 2.
  unfold set_local at 1. rewrite for_each_transformed_pair.
  unfold datetime_now, write_json, output_file_name. run_M.
  by destruct (fs_open_w E _).
Qed.

(** C7.  When the file can be opened for writing, [transform_alpaca_format]
    returns the name made of the time stamp together with the list of the
    flat records of the entries: one record per entry, in the order of the
    entries, with the key as instruction, the value as output and the
    empty string as input; the same list is what it writes to the file. *)
Theorem transform_alpaca_format_records dataset E w l :
  let file := py "transformed_qa_" ++ strftime (clock E) ++ py ".json" in
  fs_open_w E file = None →
  ∃ data,
    transform_alpaca_format dataset E w l
    = (Return (file, data),
       {| calls := calls w; trace := trace w ++ [WriteJson file data] |},
       data)
    ∧ length data = PyDict.len dataset
    ∧ (∀ i, data !! i
            = (λ entry, {| instruction := entry.1; input := [];
                           output := entry.2 |})
              <$> PyDict.items dataset !! i)
    ∧ Forall (λ record, input record = []) data.
Proof.
  intros file Hopen. exists (flat_record <$> PyDict.items dataset).
  rewrite transform_alpaca_format_run. cbv zeta.
  fold file in Hopen |- *. unfold output_file_name. fold file.
  rewrite Hopen. split; [done|]. split; [|split].
  - unfold PyDict.len, PyDict.items. by rewrite length_fmap.
  - intros i. by rewrite list_lookup_fmap.
  - apply Forall_fmap, Forall_forall. by intros entry _.
Qed.

Lemma transform_alpaca_format_records_witness :
  let dataset := [(py "Q1", py "A1"); (py "Q2", py "A2")] in
  let E := an_env (Return None) in
  let file := py "transformed_qa_20250307_090500.json" in
  fs_open_w E file = None
  ∧ ∃ data,
      transform_alpaca_format dataset E fresh []
      = (Return (file, data),
         {| calls := 0; trace := [WriteJson file data] |}, data)
      ∧ length data = PyDict.len dataset
      ∧ (∀ i, data !! i
              = (λ entry, {| instruction := entry.1; input := [];
                             output := entry.2 |})
                <$> PyDict.items dataset !! i)
      ∧ Forall (λ record, input record = []) data.
Proof.
  split; [reflexivity|].
  exact (transform_alpaca_format_records
           [(py "Q1", py "A1"); (py "Q2", py "A2")]
           (an_env (Return None)) fresh [] eq_refl).
Defined.

(** C10.  On the empty mapping [transform_alpaca_format] does not fail:
    when the file can be opened for writing, it writes the empty list and
    returns the name made of the time stamp with the empty list of
    records. *)
Theorem transform_alpaca_format_empty E w l :
  let file := py "transformed_qa_" ++ strftime (clock E) ++ py ".json" in
  fs_open_w E file = None →
  transform_alpaca_format [] E w l
  = (Return (file, []),
     {| calls := calls w; trace := trace w ++ [WriteJson file []] |}, []).
Proof.
  intros file Hopen. rewrite transform_alpaca_format_run. cbv zeta.
  unfold output_file_name. fold file. by rewrite Hopen.
Qed.

Lemma transform_alpaca_format_empty_witness :
  let E := an_env (Return None) in
  let file := py "transformed_qa_20250307_090500.json" in
  fs_open_w E file = None
  ∧ transform_alpaca_format [] E fresh []
    = (Return (file, []), {| calls := 0; trace := [WriteJson file []] |}, []).
Proof.
  split; [reflexivity|].
  exact (transform_alpaca_format_empty (an_env (Return None)) fresh []
           eq_refl).
Defined.

(* ===================================================================== *)
(** * The dataset: [create_ds] *)
(* ===================================================================== *)

Section dict_facts.
Context {K V : Type} `{EqDecision K}.
Implicit Types (k : K) (v : V) (d : list (K * V)).

Lemma keys_setitem k v d :
  PyDict.keys (PyDict.setitem k v d)
  = if decide (k ∈ PyDict.keys d) then PyDict.keys d
    else PyDict.keys d ++ [k].
Proof.
  unfold PyDict.keys. induction d as [|[k' v'] d IH]; csimpl.
  - by destruct (decide (k ∈ [])) as [?%elem_of_nil|].
  - destruct (decide (k = k')) as [->|Hne]; csimpl.
    + destruct (decide (k' ∈ k' :: d.*1)) as [|Hnin]; [done|].
      destruct Hnin. apply list_elem_of_here.
    + rewrite IH. destruct (decide (k ∈ d.*1)) as [Hin|Hnin].
      * destruct (decide (k ∈ k' :: d.*1)) as [|Hnin]; [done|].
        destruct Hnin. by apply list_elem_of_further.
      * destruct (decide (k ∈ k' :: d.*1)) as [Hin|]; [|done].
        apply elem_of_cons in Hin as [?|?]; done.
Qed.

Lemma getitem_setitem k k' v d :
  PyDict.getitem k' (PyDict.setitem k v d)
  = if decide (k' = k) then Some v else PyDict.getitem k' d.
Proof.
  induction d as [|[k0 v0] d IH]; simpl.
  - by destruct (decide (k' = k)).
  - destruct (decide (k = k0)) as [->|Hne]; simpl.
    + by destruct (decide (k' = k0)).
    + rewrite IH. destruct (decide (k' = k0)) as [->|];
        destruct (decide (k0 = k)); done.
Qed.

Lemma of_pairs_snoc (pairs : list (K * V)) k v :
  PyDict.of_pairs (pairs ++ [(k, v)])
  = PyDict.setitem k v (PyDict.of_pairs pairs).
Proof. unfold PyDict.of_pairs. by rewrite foldl_app. Qed.

(** The keys of [dict(pairs)] are pairwise distinct and are the first
    components of the pairs. *)
Lemma of_pairs_keys (pairs : list (K * V)) :
  NoDup (PyDict.keys (PyDict.of_pairs pairs))
  ∧ ∀ k, k ∈ PyDict.keys (PyDict.of_pairs pairs) ↔ k ∈ pairs.*1.
Proof.
  induction pairs as [|[k v] pairs [IH1 IH2]] using rev_ind.
  - split; [constructor|done].
  - rewrite of_pairs_snoc, keys_setitem, fmap_app. simpl.
    destruct (decide (k ∈ PyDict.keys (PyDict.of_pairs pairs))) as [Hin|Hnin].
    + split; [done|]. intros k'. rewrite elem_of_app, list_elem_of_singleton.
      rewrite IH2. split; [tauto|]. intros [? | ->]; [done|]. by apply IH2.
    + split.
      * apply NoDup_app. split; [done|]. split; [|apply NoDup_singleton].
        intros k' Hk' ->%list_elem_of_singleton. done.
      * intros k'. rewrite !elem_of_app, !list_elem_of_singleton.
        by rewrite IH2.
Qed.

(** The value of a key in [dict(pairs)] is the one of the last pair with
    that key. *)
Lemma of_pairs_last (before after : list (K * V)) k v :
  k ∉ after.*1 →
  PyDict.getitem k (PyDict.of_pairs (before ++ (k, v) :: after)) = Some v.
Proof.
  induction after as [|[k' v'] after IH] using rev_ind; intros Hnot.
  - rewrite of_pairs_snoc, getitem_setitem. by rewrite decide_True.
  - rewrite fmap_app, not_elem_of_app in Hnot. destruct Hnot as [Hnot Hk'].
    simpl in Hk'. apply not_elem_of_cons in Hk' as [Hne _].
    replace (before ++ (k, v) :: after ++ [(k', v')])
      with ((before ++ (k, v) :: after) ++ [(k', v')])
      by (by rewrite <- app_assoc).
    rewrite of_pairs_snoc, getitem_setitem.
    rewrite decide_False by done. by apply IH.
Qed.

(** The number of entries of [dict(pairs)]. *)
Lemma of_pairs_len (pairs : list (K * V)) :
  PyDict.len (PyDict.of_pairs pairs) ≤ length pairs
  ∧ (PyDict.len (PyDict.of_pairs pairs) = length pairs ↔ NoDup pairs.*1).
Proof.
  destruct (of_pairs_keys pairs) as [Hnodup Hkeys].
  set (d := PyDict.of_pairs pairs) in *.
  assert (Hlen : PyDict.len d = length (PyDict.keys d))
    by (unfold PyDict.len, PyDict.keys; by rewrite length_fmap).
  assert (Hsub : PyDict.keys d ⊆+ pairs.*1).
  { apply NoDup_submseteq; [done|]. intros k. by rewrite Hkeys. }
  assert (Hle : length (PyDict.keys d) ≤ length pairs).
  { rewrite <- (length_fmap fst pairs). by apply submseteq_length. }
  split; [lia|]. rewrite Hlen. split.
  - intros Heq. rewrite <- (length_fmap fst pairs) in Heq.
    assert (Hperm : PyDict.keys d ≡ₚ pairs.*1)
      by (apply submseteq_length_Permutation; [done|lia]).
    by rewrite <- Hperm.
  - intros Hnd.
    assert (Hsub' : pairs.*1 ⊆+ PyDict.keys d).
    { apply NoDup_submseteq; [done|]. intros k. by rewrite Hkeys. }
    apply submseteq_length in Hsub'. rewrite length_fmap in Hsub'. lia.
Qed.
End dict_facts.

(** C2.  [create_ds] raises its [ValueError] exactly when the two lists
    differ in length, it raises nothing else, and it returns a mapping
    exactly when the lengths are equal. *)
Theorem create_ds_length_mismatch (instruction output : list str) :
  (create_ds instruction output
   = Raise (ValueError "Instruction and output must be the same length")
   ↔ length instruction ≠ length output)
  ∧ ((∃ d, create_ds instruction output = Return d)
     ↔ length instruction = length output)
  ∧ (∀ e, create_ds instruction output = Raise e →
          e = ValueError "Instruction and output must be the same length").
Proof.
  unfold create_ds. case_bool_decide as Hlen.
  - split; [done|]. split; [|by intros e [= <-]].
    split; [by intros [d [=]]|done].
  - split; [split; [done|by intros ?]|]. split; [|by intros e [=]].
    split; [done|eauto].
Qed.

(** C6.  For two lists of the same length [N], [create_ds] returns a
    mapping with pairwise distinct keys and at most [N] entries, with
    exactly [N] entries if and only if the instructions are pairwise
    distinct; the value kept for an instruction is the output at the
    position of its last occurrence. *)
Theorem create_ds_last_write_wins (instruction output : list str) :
  length instruction = length output →
  ∃ d,
    create_ds instruction output = Return d
    ∧ NoDup (PyDict.keys d)
    ∧ PyDict.len d ≤ length instruction
    ∧ (PyDict.len d = length instruction ↔ NoDup instruction)
    ∧ (∀ j k,
         instruction !! j = Some k →
         (∀ j', j < j' → instruction !! j' ≠ Some k) →
         PyDict.getitem k d = output !! j).
Proof.
  intros Hlen. exists (PyDict.of_pairs (zip instruction output)).
  assert (Hfst : (zip instruction output).*1 = instruction)
    by (apply fst_zip; lia).
  assert (Hzip : length (zip instruction output) = length instruction)
    by (rewrite length_zip; lia).
  destruct (of_pairs_len (zip instruction output)) as [Hle Hiff].
  rewrite Hzip in Hle, Hiff. rewrite Hfst in Hiff.
  split; [|split; [|split; [|split]]]; [|apply of_pairs_keys|done|done|].
  - unfold create_ds. rewrite bool_decide_eq_false_2; [done|]. by intros ?.
  - intros j k Hj Hlast.
    assert (Hv : is_Some (output !! j)).
    { apply lookup_lt_is_Some. rewrite <- Hlen. by apply lookup_lt_is_Some. }
    destruct Hv as [v Hv]. rewrite Hv.
    assert (Hjv : zip instruction output !! j = Some (k, v))
      by (by apply lookup_zip_Some).
    rewrite <- (take_drop_middle _ _ _ Hjv).
    apply of_pairs_last.
    rewrite fmap_drop, Hfst. intros Hin.
    apply list_elem_of_lookup in Hin as [i Hi].
    rewrite lookup_drop in Hi. apply (Hlast (S j + i)); [lia|done].
Qed.

Lemma create_ds_last_write_wins_witness :
  let instruction := [py "Problem A"; py "Problem B"; py "Problem A"] in
  let output := [py "first"; py "second"; py "third"] in
  length instruction = length output
  ∧ ∃ d,
      create_ds instruction output = Return d
      ∧ NoDup (PyDict.keys d)
      ∧ PyDict.len d ≤ length instruction
      ∧ (PyDict.len d = length instruction ↔ NoDup instruction)
      ∧ (∀ j k,
           instruction !! j = Some k →
           (∀ j', j < j' → instruction !! j' ≠ Some k) →
           PyDict.getitem k d = output !! j).
Proof.
  split; [reflexivity|].
  exact (create_ds_last_write_wins
           [py "Problem A"; py "Problem B"; py "Problem A"]
           [py "first"; py "second"; py "third"] eq_refl).
Defined.

(* ===================================================================== *)
(** * The methods in sequence *)
(* ===================================================================== *)

(** Three problems are extracted, the backend fails on the second one, two
    texts come back, and pairing the three instructions with them is
    refused. *)
Example pipeline_dropped_item_then_mismatch :
  let instruction := extract_listings listing_problems in
  let run := get_cot_result a_snail instruction 5 an_env_failing_once fresh [] in
  instruction = [py "Problem A"; py "Problem B"; py "Problem C"]
  ∧ run.1.1 = Return [text a_response; text a_response]
  ∧ sleeps (trace run.1.2) = [5%Z; 5%Z]
  ∧ create_ds instruction [text a_response; text a_response]
    = Raise (ValueError "Instruction and output must be the same length").
Proof. by vm_compute. Qed.

(* ===================================================================== *)
(** * The constructor *)
(* ===================================================================== *)

Lemma missing_false (value : option str) :
  missing value = false ↔ ∃ v, value = Some v ∧ v ≠ [].
Proof.
  destruct value as [[|c v]|]; simpl; split; try done.
  - by intros (v & [= <-] & ?).
  - intros _. by exists (c :: v).
  - by intros (v & [=] & ?).
Qed.

Lemma init_inversion new_client k m r q t (self : snail) :
  init new_client k m r q t = Return self →
  ∃ key model rl query n,
    k = Some key ∧ key ≠ [] ∧ new_client key = None
    ∧ m = Some model ∧ model ≠ []
    ∧ r = Some rl ∧ rl ≠ []
    ∧ q = Some query ∧ query ≠ []
    ∧ t = Some n ∧ (0 < n)%Z
    ∧ self = {| google_api_key := key;
                model_id := model;
                role := rl;
                user_query := query;
                max_output_tokens := n;
                system_instruction_google_search :=
                  google_search_instruction rl;
                system_instruction_cot := cot_instruction rl |}.
Proof.
  unfold init.
  destruct (missing k) eqn:Hk; [done|].
  destruct (new_client (default [] k)) as [e|] eqn:Hc; [done|].
  destruct (missing m) eqn:Hm; [done|].
  destruct (missing r) eqn:Hr; [done|].
  destruct (missing q) eqn:Hq; [done|].
  destruct (not_positive t) eqn:Ht; [done|].
  apply missing_false in Hk as (key & -> & ?).
  apply missing_false in Hm as (model & -> & ?).
  apply missing_false in Hr as (rl & -> & ?).
  apply missing_false in Hq as (query & -> & ?).
  destruct t as [n|]; [|done]. simpl in Ht.
  apply bool_decide_eq_false in Ht.
  intros [= <-]. exists key, model, rl, query, n. simpl in *.
  repeat split; try done. lia.
Qed.

(** X1.  The constructor returns an instance exactly when the key, the
    model, the role and the query are non-empty strings, the client can be
    built and the token budget is a positive number; the instance holds
    the arguments, and its two instructions are made from the role. *)
Theorem init_returns new_client k m r q t (self : snail) :
  init new_client k m r q t = Return self
  ↔ ∃ key model rl query n,
      k = Some key ∧ key ≠ [] ∧ new_client key = None
      ∧ m = Some model ∧ model ≠ []
      ∧ r = Some rl ∧ rl ≠ []
      ∧ q = Some query ∧ query ≠ []
      ∧ t = Some n ∧ (0 < n)%Z
      ∧ self = {| google_api_key := key;
                  model_id := model;
                  role := rl;
                  user_query := query;
                  max_output_tokens := n;
                  system_instruction_google_search :=
                    google_search_instruction rl;
                  system_instruction_cot := cot_instruction rl |}.
Proof.
  split; [apply init_inversion|].
  intros (key & model & rl & query & n & -> & Hk & Hc & -> & Hm & -> & Hr
          & -> & Hq & -> & Hn & ->).
  unfold init. destruct key, model, rl, query; try done. simpl in *.
  rewrite Hc. rewrite bool_decide_eq_false_2 by lia. done.
Qed.

(** X2.  The requests of an instance the constructor returned are well
    formed: the search request names a model, carries the query, enables
    the search tool and has a positive token budget; a chain-of-thought
    request names the same model, carries the item and the instruction made
    from the role, and does not enable the search tool. *)
Theorem init_requests new_client k m r q t (self : snail) :
  init new_client k m r q t = Return self →
  let req := search_request self in
  req_model req ≠ [] ∧ Some (req_contents req) = q ∧ req_contents req ≠ []
  ∧ req_google_search req = true
  ∧ (∃ n, req_max_output_tokens req = Some n ∧ (0 < n)%Z)
  ∧ ∀ data,
      req_model (cot_request self data) = req_model req
      ∧ req_contents (cot_request self data) = data
      ∧ req_system_instruction (cot_request self data)
        = cot_instruction (role self)
      ∧ Some (role self) = r
      ∧ req_google_search (cot_request self data) = false.
Proof.
  intros Hinit.
  apply init_inversion in Hinit
    as (key & model & rl & query & n & -> & Hk & Hc & -> & Hm & -> & Hr
        & -> & Hq & -> & Hn & ->).
  simpl. repeat split; try done. by exists n.
Qed.

Lemma init_requests_witness :
  let self :=
    {| google_api_key := py "key";
       model_id := py "gemini";
       role := py "physicist";
       user_query := py "List 3 hard problems in physics";
       max_output_tokens := 2048;
       system_instruction_google_search :=
         google_search_instruction (py "physicist");
       system_instruction_cot := cot_instruction (py "physicist") |} in
  init (λ _, None) (Some (py "key")) (Some (py "gemini"))
    (Some (py "physicist")) (Some (py "List 3 hard problems in physics"))
    (Some 2048%Z) = Return self
  ∧ req_model (search_request self) ≠ []
  ∧ req_google_search (search_request self) = true.
Proof.
  assert (H : init (λ _, None) (Some (py "key")) (Some (py "gemini"))
                (Some (py "physicist"))
                (Some (py "List 3 hard problems in physics"))
                (Some 2048%Z)
              = Return
                  {| google_api_key := py "key";
                     model_id := py "gemini";
                     role := py "physicist";
                     user_query := py "List 3 hard problems in physics";
                     max_output_tokens := 2048;
                     system_instruction_google_search :=
                       google_search_instruction (py "physicist");
                     system_instruction_cot :=
                       cot_instruction (py "physicist") |})
    by reflexivity.
  split; [exact H|].
  pose proof (init_requests _ _ _ _ _ _ _ H) as R. cbv zeta in R.
  destruct R as (R1 & _ & _ & R2 & _).
  split; [exact R1|exact R2].
Defined.

(* ===================================================================== *)
(** * More about [extract_listings] *)
(* ===================================================================== *)

Lemma drop_while_id f s :
  (∀ c, head s = Some c → f c = false) → drop_while f s = s.
Proof. destruct s as [|c s]; [done|]. intros H. simpl. by rewrite (H c). Qed.

Lemma rstrip_id s :
  (∀ c, last s = Some c → isspace c = false) → rstrip s = s.
Proof.
  intros H. unfold rstrip. rewrite drop_while_id.
  - apply reverse_involutive.
  - intros c. rewrite head_reverse. apply H.
Qed.

Lemma rstrip_head s c : head (rstrip s) = Some c → head s = Some c.
Proof.
  destruct (rstrip_prefix s) as [t Ht]. intros Hh.
  destruct (rstrip s) as [|c' r]; [done|]. injection Hh as ->.
  by rewrite Ht.
Qed.

Lemma marker_at_head s body rest : marker_at s body rest → head s = Some nl.
Proof. by destruct 1. Qed.

Lemma numbered_list_head entries :
  numbered_list entries = [] ∨ head (numbered_list entries) = Some nl.
Proof. destruct entries as [|[number item] entries]; [by left|by right]. Qed.

Lemma occurrences_numbered_list entries :
  Forall (λ e, e.1 ≠ [] ∧ Forall (λ c, isdecimal c = true) e.1
               ∧ plain_item e.2) entries →
  occurrences (numbered_list entries) entries.*2.
Proof.
  induction 1 as [|[number item] entries (Hne & Hdig & Hitem) _ IH]; simpl.
  - constructor.
  - destruct Hitem as (Hitem & Hnl & Hhead & _).
    apply (occ_match _ item (numbered_list entries)); [|..|done].
    + apply (marker_at_intro number [" "%char] item (numbered_list entries));
        try done.
      * by repeat constructor.
      * apply numbered_list_head.
    + intros c. destruct item as [|c' item]; [done|]. apply Hhead.
Qed.

(** X3.  A round trip: on a text made of a first line and a numbered list
    in the expected format, whose items are not empty, have no newline and
    neither begin nor end with whitespace, the extraction gives the items
    back, in their order. *)
Theorem extract_listings_numbered_list (preamble : str) entries :
  nl ∉ preamble →
  Forall (λ e, e.1 ≠ [] ∧ Forall (λ c, isdecimal c = true) e.1
               ∧ plain_item e.2) entries →
  extract_listings (preamble ++ numbered_list entries) = entries.*2.
Proof.
  intros Hpre Hentries.
  assert (Hocc : occurrences (preamble ++ numbered_list entries) entries.*2).
  { apply (occurrences_skip _ (length preamble)).
    - rewrite length_app. lia.
    - intros m Hm body rest Hmarker. apply marker_at_head in Hmarker.
      destruct (lookup_lt_is_Some_2 preamble m Hm) as [c Hc].
      rewrite drop_app_le in Hmarker by lia.
      rewrite (drop_S _ _ _ Hc) in Hmarker. simpl in Hmarker.
      injection Hmarker as ->. apply Hpre.
      by apply list_elem_of_lookup_2 in Hc.
    - rewrite drop_app_length. by apply occurrences_numbered_list. }
  unfold extract_listings.
  rewrite <- (occurrences_unique _ _ _ Hocc (occurrences_findall _)).
  clear Hocc. induction Hentries as [|[number item] entries H _ IH];
    [done|].
  csimpl. rewrite IH. f_equal. apply rstrip_id. apply H.
Qed.

Lemma extract_listings_numbered_list_witness :
  let entries := [(py "1", py "Problem A"); (py "2", py "Problem B")] in
  (nl ∉ py "Here are two problems:")
  ∧ Forall (λ e, e.1 ≠ [] ∧ Forall (λ c, isdecimal c = true) e.1
                 ∧ plain_item e.2) entries
  ∧ extract_listings (py "Here are two problems:" ++ numbered_list entries)
    = [py "Problem A"; py "Problem B"].
Proof.
  assert (Hpre : nl ∉ py "Here are two problems:").
  { apply (bool_decide_unpack _). vm_compute. exact I. }
  assert (Hplain : ∀ item,
            bool_decide (item ≠ []) && bool_decide (nl ∉ item)
            && negb (from_option isspace false (head item))
            && negb (from_option isspace false (last item)) = true →
            plain_item item).
  { intros item H. repeat apply andb_prop in H as [H ?].
    apply bool_decide_eq_true in H.
    match goal with
    | Hnl : bool_decide (nl ∉ item) = true |- _ =>
        apply bool_decide_eq_true in Hnl
    end.
    repeat split; try done.
    - intros c Hc. rewrite Hc in *. simpl in *. by apply negb_true_iff.
    - intros c Hc. rewrite Hc in *. simpl in *. by apply negb_true_iff. }
  assert (Hentries :
            Forall (λ e, e.1 ≠ [] ∧ Forall (λ c, isdecimal c = true) e.1
                         ∧ plain_item e.2)
              [(py "1", py "Problem A"); (py "2", py "Problem B")]).
  { repeat constructor; try done; apply Hplain; by vm_compute. }
  split; [exact Hpre|]. split; [exact Hentries|].
  exact (extract_listings_numbered_list (py "Here are two problems:")
           [(py "1", py "Problem A"); (py "2", py "Problem B")]
           Hpre Hentries).
Defined.

(** X4.  No extracted string begins or ends with a whitespace character:
    the whitespace after the period is taken whole, and the end of the
    line is trimmed. *)
Theorem extract_listings_stripped (text q : str) :
  q ∈ extract_listings text →
  (∀ c, head q = Some c → isspace c = false)
  ∧ (∀ c, last q = Some c → isspace c = false).
Proof.
  unfold extract_listings. intros Hq.
  apply list_elem_of_fmap in Hq as (body & -> & Hbody).
  destruct (occurrences_elem _ _ _ (occurrences_findall text) Hbody)
    as (n & rest & _ & _ & Hlong).
  split.
  - intros c Hc. apply rstrip_head in Hc. apply Hlong.
    destruct body; [done|]. done.
  - apply rstrip_spec.
Qed.

Lemma extract_listings_stripped_witness :
  let text := nl :: py "7.   spaced out   " in
  py "spaced out" ∈ extract_listings text
  ∧ (∀ c, head (py "spaced out") = Some c → isspace c = false)
  ∧ (∀ c, last (py "spaced out") = Some c → isspace c = false).
Proof.
  assert (H : py "spaced out" ∈ extract_listings (nl :: py "7.   spaced out   ")).
  { apply (bool_decide_unpack _). vm_compute. exact I. }
  split; [exact H|].
  exact (extract_listings_stripped _ _ H).
Defined.

Lemma occurrences_newlines s l :
  occurrences s l → length l ≤ length (filter (λ c, c = nl) s).
Proof.
  induction 1 as [|c s l _ _ IH|s body rest l Hm _ _ IH]; [done| |].
  - rewrite filter_cons. case_decide; simpl; lia.
  - destruct Hm as [ds ws body rest _ _ _ _ _ _].
    rewrite filter_cons_True by done.
    rewrite !filter_app, filter_cons, !filter_app.
    case_decide; [done|]. simpl. rewrite !length_app. lia.
Qed.

(** X5.  There are at most as many extracted strings as there are newline
    characters in the text: every marker begins with a newline of its
    own. *)
Theorem extract_listings_at_most_newlines (text : str) :
  length (extract_listings text) ≤ length (filter (λ c, c = nl) text).
Proof.
  unfold extract_listings. rewrite length_fmap.
  apply occurrences_newlines, occurrences_findall.
Qed.

(* ===================================================================== *)
(** * More about the generation calls *)
(* ===================================================================== *)

Lemma requests_app tr1 tr2 : requests (tr1 ++ tr2) = requests tr1 ++ requests tr2.
Proof. apply omap_app. Qed.

(** The events of the loop of [get_cot_result]: one request per item, in
    the order of the items, and otherwise prints and pauses. *)
Lemma for_each_cot_item_trace E self delay datas w results :
  ∃ evs,
    trace (for_each datas (cot_item self delay) E w results).1.2
    = trace w ++ evs
    ∧ requests evs = cot_request self <$> datas
    ∧ Forall generation_event evs
    ∧ ((delay < 0)%Z → sleeps evs = []).
Proof.
  revert w results. induction datas as [|data datas IH]; intros w results.
  - exists []. simpl. by rewrite app_nil_r.
  - simpl for_each. unfold mbind at 1, M_bind at 1.
    rewrite cot_item_run. cbv zeta.
    destruct (backend E (calls w) (cot_request self data)) as [[r|]|e].
    + case_bool_decide as Hdelay.
      * edestruct IH as (evs & -> & Hreq & Hgen & Hsl). simpl trace.
        eexists. rewrite <- app_assoc. split; [done|].
        simpl. rewrite Hreq. split; [done|]. split; [by repeat constructor|].
        done.
      * edestruct IH as (evs & -> & Hreq & Hgen & Hsl). simpl trace.
        eexists. rewrite <- app_assoc. split; [done|].
        simpl. rewrite Hreq. split; [done|]. split; [by repeat constructor|].
        intros; lia.
    + edestruct IH as (evs & -> & Hreq & Hgen & Hsl). simpl trace.
      eexists. rewrite <- app_assoc. split; [done|].
      simpl. rewrite Hreq. split; [done|]. split; [by repeat constructor|].
      done.
    + edestruct IH as (evs & -> & Hreq & Hgen & Hsl). simpl trace.
      eexists. rewrite <- app_assoc. split; [done|].
      simpl. rewrite Hreq. split; [done|]. split; [by repeat constructor|].
      done.
Qed.

Lemma get_cot_result_trace E self datas delay w l :
  ∃ evs,
    get_cot_result self datas delay E w l
    = (Return (successful_texts E self (calls w) datas),
       {| calls := calls w + length datas; trace := trace w ++ evs |},
       successful_texts E self (calls w) datas)
    ∧ requests evs = cot_request self <$> datas
    ∧ Forall generation_event evs
    ∧ ((delay < 0)%Z → sleeps evs = []).
Proof.
  destruct (for_each_cot_item E self delay datas w []) as (w' & Hrun & Hc & _).
  destruct (for_each_cot_item_trace E self delay datas w [])
    as (evs & Htr & H).
  rewrite Hrun in Htr. simpl in Htr.
  exists evs. split; [|done].
  unfold get_cot_result. run_M. rewrite Hrun.
  destruct w' as [c tr]. simpl in *. by subst.
Qed.

(** X6.  [get_cot_result] sends exactly one request per item, in the order
    of the items and whatever the outcomes, each with the item as contents
    and the chain-of-thought instruction; apart from these calls it only
    prints and pauses: it writes no file and asks nothing of the hub. *)
Theorem get_cot_result_requests E self datas delay w l :
  let run := get_cot_result self datas delay E w l in
  calls run.1.2 = calls w + length datas
  ∧ ∃ evs,
      trace run.1.2 = trace w ++ evs
      ∧ requests evs = cot_request self <$> datas
      ∧ Forall generation_event evs.
Proof.
  destruct (get_cot_result_trace E self datas delay w l)
    as (evs & -> & Hreq & Hgen & _).
  simpl. split; [done|]. by exists evs.
Qed.

(** X7.  With a negative delay [get_cot_result] never pauses, since
    [time.sleep] refuses the delay and the refusal is caught, and it still
    returns the texts of all the successful calls. *)
Theorem get_cot_result_negative_delay E self datas delay w l :
  (delay < 0)%Z →
  let run := get_cot_result self datas delay E w l in
  run.1.1 = Return (successful_texts E self (calls w) datas)
  ∧ sleeps (trace run.1.2) = sleeps (trace w).
Proof.
  intros Hdelay.
  destruct (get_cot_result_trace E self datas delay w l)
    as (evs & -> & _ & _ & Hsl).
  simpl. split; [done|]. rewrite sleeps_app, (Hsl Hdelay).
  by rewrite app_nil_r.
Qed.

Lemma get_cot_result_negative_delay_witness :
  let run :=
    get_cot_result a_snail [py "Problem A"; py "Problem B"] (-1)
      (an_env (Return (Some a_response))) fresh [] in
  (-1 < 0)%Z
  ∧ run.1.1 = Return [text a_response; text a_response]
  ∧ sleeps (trace run.1.2) = [].
Proof.
  split; [reflexivity|].
  exact (get_cot_result_negative_delay (an_env (Return (Some a_response)))
           a_snail [py "Problem A"; py "Problem B"] (-1) fresh [] eq_refl).
Defined.

Lemma successful_texts_all E self n datas :
  length (successful_texts E self n datas) = length datas
  ↔ ∀ i data, datas !! i = Some data →
      ∃ r, backend E (n + i) (cot_request self data) = Return (Some r).
Proof.
  revert n. induction datas as [|d datas IH]; intros n.
  - split; [by intros _ i data|done].
  - rewrite successful_texts_cons. split.
    + intros Hlen [|i] data Hi; simpl in Hi.
      * injection Hi as ->. rewrite Nat.add_0_r.
        destruct (backend E n (cot_request self data)) as [[r|]|e]; eauto;
          pose proof (successful_texts_length E self (S n) datas);
          simpl in Hlen; lia.
      * replace (n + S i) with (S n + i) by lia. apply IH; [|done].
        pose proof (successful_texts_length E self (S n) datas).
        destruct (success_text _); simpl in Hlen; lia.
    + intros Hall. destruct (Hall 0 d eq_refl) as [r Hr].
      rewrite Nat.add_0_r in Hr. rewrite Hr. simpl. f_equal.
      apply IH. intros i data Hi.
      replace (S n + i) with (n + S i) by lia. by apply Hall.
Qed.

Lemma successful_texts_lookup E self n datas i data :
  length (successful_texts E self n datas) = length datas →
  datas !! i = Some data →
  success_text (backend E (n + i) (cot_request self data))
  = successful_texts E self n datas !! i.
Proof.
  revert n i. induction datas as [|d datas IH]; intros n i Hlen Hi; [done|].
  pose proof (proj1 (successful_texts_all E self n (d :: datas)) Hlen) as Hall.
  rewrite successful_texts_cons in Hlen |- *.
  destruct (Hall 0 d eq_refl) as [r Hr]. rewrite Nat.add_0_r in Hr.
  rewrite Hr in Hlen |- *. simpl in Hlen |- *.
  destruct i as [|i]; simpl in *.
  - injection Hi as ->. by rewrite Nat.add_0_r, Hr.
  - replace (n + S i) with (S n + i) by lia. apply IH; [lia|done].
Qed.

(** X8.  The list [get_cot_result] returns is as long as the list of items
    exactly when every call returned a response; the result at an index
    is then the text of the response to the item at that index. *)
Theorem get_cot_result_aligned E self datas delay w l results :
  (get_cot_result self datas delay E w l).1.1 = Return results →
  (length results = length datas
   ↔ ∀ i data, datas !! i = Some data →
       ∃ r, backend E (calls w + i) (cot_request self data) = Return (Some r))
  ∧ (length results = length datas →
     ∀ i data, datas !! i = Some data →
       ∃ r, backend E (calls w + i) (cot_request self data) = Return (Some r)
            ∧ results !! i = Some (text r)).
Proof.
  destruct (get_cot_result_run E self datas delay w l) as (w' & -> & _).
  simpl. intros [= <-]. split; [apply successful_texts_all|].
  intros Hlen i data Hi.
  destruct (proj1 (successful_texts_all E self _ datas) Hlen i data Hi)
    as [r Hr].
  exists r. split; [done|].
  rewrite <- (successful_texts_lookup E self _ datas i data Hlen Hi).
  by rewrite Hr.
Qed.

Lemma get_cot_result_aligned_witness :
  let E := an_env (Return (Some a_response)) in
  let datas := [py "Problem A"; py "Problem B"] in
  let results := [text a_response; text a_response] in
  (get_cot_result a_snail datas 5 E fresh []).1.1 = Return results
  ∧ (length results = length datas
     ↔ ∀ i data, datas !! i = Some data →
         ∃ r, backend E (calls fresh + i) (cot_request a_snail data)
              = Return (Some r)).
Proof.
  split; [reflexivity|].
  exact (proj1 (get_cot_result_aligned (an_env (Return (Some a_response)))
                  a_snail [py "Problem A"; py "Problem B"] 5 fresh []
                  [text a_response; text a_response] eq_refl)).
Defined.

(** X9.  [searching] makes exactly one call to the backend in every case,
    with the query, the search tool and the token budget of the instance;
    when the backend returns a response object nothing is printed, and
    when it raises or returns no response the error is printed once and
    the method returns [None]. *)
Theorem searching_one_call E self w :
  let run := searching self E w () in
  calls run.1.2 = S (calls w)
  ∧ requests (trace run.1.2) = requests (trace w) ++ [search_request self]
  ∧ (∀ r, backend E (calls w) (search_request self) = Return (Some r) →
          trace run.1.2 = trace w ++ [Generate (search_request self)])
  ∧ (success_text (backend E (calls w) (search_request self)) = None →
     run.1.1 = Return None
     ∧ ∃ e, trace run.1.2
            = trace w ++ [Generate (search_request self);
                          Printed (SearchError e)]).
Proof.
  rewrite searching_run. cbv zeta.
  destruct (backend E (calls w) (search_request self)) as [[r|]|e]; simpl;
    rewrite requests_app; simpl; repeat split; try done; eauto.
Qed.

Lemma searching_one_call_witness :
  let E := an_env (Return None) in
  let run := searching a_snail E fresh () in
  success_text (backend E (calls fresh) (search_request a_snail)) = None
  ∧ run.1.1 = Return None
  ∧ ∃ e, trace run.1.2
         = trace fresh ++ [Generate (search_request a_snail);
                           Printed (SearchError e)].
Proof.
  split; [reflexivity|].
  pose proof (searching_one_call (an_env (Return None)) a_snail fresh) as H.
  cbv zeta in H. destruct H as (_ & _ & _ & H).
  exact (H eq_refl).
Defined.

(* ===================================================================== *)
(** * More about the dataset *)
(* ===================================================================== *)

Lemma setitem_fresh {K V : Type} `{EqDecision K} (k : K) (v : V) d :
  k ∉ PyDict.keys d → PyDict.setitem k v d = d ++ [(k, v)].
Proof.
  unfold PyDict.keys. induction d as [|[k' v'] d IH]; csimpl; [done|].
  intros [Hne Hnin]%not_elem_of_cons.
  rewrite decide_False by done. by rewrite IH.
Qed.

Lemma getitem_is_Some {K V : Type} `{EqDecision K} (k : K) (d : list (K * V)) :
  is_Some (PyDict.getitem k d) ↔ k ∈ PyDict.keys d.
Proof.
  unfold PyDict.keys. induction d as [|[k' v'] d IH]; csimpl.
  - split; [by intros [? [=]]|by intros ?%elem_of_nil].
  - destruct (decide (k = k')) as [->|Hne].
    + split; [intros _; apply list_elem_of_here|eauto].
    + rewrite IH, elem_of_cons. split; [by right|by intros [?|?]].
Qed.

(** [dict(pairs)] for pairs with pairwise distinct keys is the list of the
    pairs. *)
Lemma of_pairs_distinct {K V : Type} `{EqDecision K} (pairs : list (K * V)) :
  NoDup pairs.*1 → PyDict.of_pairs pairs = pairs.
Proof.
  induction pairs as [|[k v] pairs IH] using rev_ind; [done|].
  rewrite fmap_app. intros (Hnd & Hk & _)%NoDup_app.
  rewrite of_pairs_snoc, IH by done.
  apply setitem_fresh. unfold PyDict.keys. intros Hin.
  apply (Hk k Hin). simpl. apply list_elem_of_here.
Qed.

Lemma filter_filter_ne (keys : list str) (k : str) (l : list str) :
  k ∈ keys →
  filter (λ y, y ∉ keys) (filter (λ y, y ≠ k) l) = filter (λ y, y ∉ keys) l.
Proof.
  intros Hk. induction l as [|x l IH]; [done|].
  rewrite (filter_cons (λ y, y ≠ k)), (filter_cons (λ y, y ∉ keys) x l).
  destruct (decide (x ≠ k)) as [Hne|Heq].
  - rewrite filter_cons, IH. done.
  - apply dec_stable in Heq. subst x.
    rewrite decide_False by (by intros H; apply H). done.
Qed.

Lemma filter_snoc_keys (keys : list str) (k : str) (l : list str) :
  filter (λ y, y ∉ keys ++ [k]) l
  = filter (λ y, y ∉ keys) (filter (λ y, y ≠ k) l).
Proof.
  induction l as [|x l IH]; [done|].
  rewrite (filter_cons (λ y, y ≠ k)), (filter_cons (λ y, y ∉ keys ++ [k])).
  destruct (decide (x ≠ k)) as [Hne|Heq].
  - rewrite filter_cons, IH.
    destruct (decide (x ∉ keys)) as [Hx|Hx].
    + rewrite decide_True; [done|].
      rewrite not_elem_of_app, list_elem_of_singleton. done.
    + rewrite decide_False; [done|].
      rewrite not_elem_of_app. tauto.
  - apply dec_stable in Heq. subst x.
    rewrite decide_False; [done|].
    rewrite not_elem_of_app, list_elem_of_singleton. tauto.
Qed.

Lemma keys_foldl_setitem (pairs : list (str * str)) (d : list (str * str)) :
  PyDict.keys (foldl (λ d kv, PyDict.setitem kv.1 kv.2 d) d pairs)
  = PyDict.keys d
    ++ filter (λ y, y ∉ PyDict.keys d) (first_occurrences pairs.*1).
Proof.
  revert d. induction pairs as [|[k v] pairs IH]; intros d; csimpl.
  - by rewrite app_nil_r.
  - rewrite IH, keys_setitem. rewrite filter_cons.
    destruct (decide (k ∈ PyDict.keys d)) as [Hin|Hnin].
    + rewrite decide_False by (by intros H; apply H).
      by rewrite filter_filter_ne.
    + rewrite decide_True by done.
      rewrite <- app_assoc. simpl. by rewrite filter_snoc_keys.
Qed.

Lemma filter_not_elem_of_nil (l : list str) :
  filter (λ y, y ∉ ([] : list str)) l = l.
Proof.
  induction l as [|x l IH]; [done|].
  rewrite filter_cons, decide_True, IH; [done|]. apply not_elem_of_nil.
Qed.

Lemma create_ds_Return (instruction output : list str) :
  length instruction = length output →
  create_ds instruction output
  = Return (PyDict.of_pairs (zip instruction output))
  ∧ (zip instruction output).*1 = instruction.
Proof.
  intros Hlen. unfold create_ds.
  rewrite bool_decide_eq_false_2 by (by intros ?).
  split; [done|]. apply fst_zip. lia.
Qed.

(** X10.  When the instructions are pairwise distinct, the mapping of
    [create_ds] is the list of the pairs instruction/output in the order of
    the input: nothing is merged or reordered. *)
Theorem create_ds_distinct (instruction output : list str) :
  length instruction = length output →
  NoDup instruction →
  create_ds instruction output = Return (zip instruction output)
  ∧ PyDict.keys (zip instruction output) = instruction
  ∧ (zip instruction output).*2 = output.
Proof.
  intros Hlen Hnd.
  destruct (create_ds_Return instruction output Hlen) as [-> Hfst].
  rewrite of_pairs_distinct by (by rewrite Hfst).
  split; [done|]. split; [done|]. apply snd_zip. lia.
Qed.

Lemma create_ds_distinct_witness :
  let instruction := [py "Problem A"; py "Problem B"] in
  let output := [py "first"; py "second"] in
  length instruction = length output
  ∧ NoDup instruction
  ∧ create_ds instruction output
    = Return [(py "Problem A", py "first"); (py "Problem B", py "second")].
Proof.
  assert (Hnd : NoDup [py "Problem A"; py "Problem B"]).
  { apply (bool_decide_unpack _). vm_compute. exact I. }
  split; [reflexivity|]. split; [exact Hnd|].
  exact (proj1 (create_ds_distinct [py "Problem A"; py "Problem B"]
                  [py "first"; py "second"] eq_refl Hnd)).
Defined.

(** X11.  The keys of the mapping of [create_ds] are the instructions in
    the order in which they first occur, and a key has a value exactly
    when it is one of the instructions. *)
Theorem create_ds_keys (instruction output : list str) :
  length instruction = length output →
  ∃ d,
    create_ds instruction output = Return d
    ∧ PyDict.keys d = first_occurrences instruction
    ∧ ∀ k, is_Some (PyDict.getitem k d) ↔ k ∈ instruction.
Proof.
  intros Hlen.
  destruct (create_ds_Return instruction output Hlen) as [-> Hfst].
  eexists. split; [done|].
  assert (Hkeys : PyDict.keys (PyDict.of_pairs (zip instruction output))
                  = first_occurrences instruction).
  { unfold PyDict.of_pairs. rewrite keys_foldl_setitem. simpl.
    by rewrite filter_not_elem_of_nil, Hfst. }
  split; [done|].
  intros k. rewrite getitem_is_Some.
  destruct (of_pairs_keys (zip instruction output)) as [_ Hin].
  by rewrite Hin, Hfst.
Qed.

Lemma create_ds_keys_witness :
  let instruction := [py "Problem A"; py "Problem B"; py "Problem A"] in
  let output := [py "first"; py "second"; py "third"] in
  length instruction = length output
  ∧ ∃ d,
      create_ds instruction output = Return d
      ∧ PyDict.keys d = first_occurrences instruction
      ∧ ∀ k, is_Some (PyDict.getitem k d) ↔ k ∈ instruction.
Proof.
  split; [reflexivity|].
  exact (create_ds_keys [py "Problem A"; py "Problem B"; py "Problem A"]
           [py "first"; py "second"; py "third"] eq_refl).
Defined.

(** X12.  Pairing the items with what [get_cot_result] returned for them:
    [create_ds] returns a mapping exactly when every call returned a
    response, and raises its length error as soon as one call failed. *)
Theorem create_ds_after_get_cot_result E self datas delay w l results :
  (get_cot_result self datas delay E w l).1.1 = Return results →
  ((∃ d, create_ds datas results = Return d)
   ↔ ∀ i data, datas !! i = Some data →
       ∃ r, backend E (calls w + i) (cot_request self data) = Return (Some r))
  ∧ ((∃ i data,
        datas !! i = Some data
        ∧ success_text (backend E (calls w + i) (cot_request self data)) = None) →
     create_ds datas results
     = Raise (ValueError "Instruction and output must be the same length")).
Proof.
  destruct (get_cot_result_run E self datas delay w l) as (w' & -> & _).
  simpl. intros [= <-].
  rewrite <- successful_texts_all. unfold create_ds.
  split.
  - case_bool_decide as Hlen.
    + split; [by intros [d [=]]|]. intros Heq. by rewrite Heq in Hlen.
    + split; [done|eauto].
  - intros (i & data & Hi & Hfail).
    rewrite bool_decide_eq_true_2; [done|].
    intros Hlen. symmetry in Hlen.
    destruct (proj1 (successful_texts_all E self _ datas) Hlen i data Hi)
      as [r Hr].
    by rewrite Hr in Hfail.
Qed.

Lemma create_ds_after_get_cot_result_witness :
  let datas := [py "Problem A"; py "Problem B"; py "Problem C"] in
  (get_cot_result a_snail datas 5 an_env_failing_once fresh []).1.1
  = Return [text a_response; text a_response]
  ∧ create_ds datas [text a_response; text a_response]
    = Raise (ValueError "Instruction and output must be the same length").
Proof.
  split; [reflexivity|].
  refine (proj2 (create_ds_after_get_cot_result an_env_failing_once a_snail
                   [py "Problem A"; py "Problem B"; py "Problem C"] 5 fresh []
                   [text a_response; text a_response] eq_refl) _).
  exists 1, (py "Problem B"). split; reflexivity.
Defined.

Lemma fmap_flat_record_zip (instruction output : list str) :
  flat_record <$> zip instruction output
  = zip_with (λ i o, {| instruction := i; input := []; output := o |})
      instruction output.
Proof.
  revert output. induction instruction as [|i instruction IH];
    intros [|o output]; csimpl; try done. by rewrite IH.
Qed.

(** X13.  From two lists to the records: for pairwise distinct instructions
    and as many outputs, [transform_alpaca_format] applied to the mapping
    of [create_ds] returns, when the file can be opened, one record per
    position of the input, in the order of the input, pairing the
    instruction and the output of that position. *)
Theorem transform_alpaca_format_after_create_ds
    (instruction output : list str) E w l :
  length instruction = length output →
  NoDup instruction →
  fs_open_w E (output_file_name (clock E)) = None →
  ∃ d,
    create_ds instruction output = Return d
    ∧ (transform_alpaca_format d E w l).1.1
      = Return (output_file_name (clock E),
                zip_with (λ i o, {| instruction := i; input := [];
                                    output := o |})
                  instruction output).
Proof.
  intros Hlen Hnd Hopen.
  destruct (create_ds_Return instruction output Hlen) as [-> Hfst].
  rewrite of_pairs_distinct by (by rewrite Hfst).
  eexists. split; [done|].
  rewrite transform_alpaca_format_run. cbv zeta. rewrite Hopen. simpl.
  unfold PyDict.items. by rewrite fmap_flat_record_zip.
Qed.

Lemma transform_alpaca_format_after_create_ds_witness :
  let instruction := [py "Problem A"; py "Problem B"] in
  let output := [py "first"; py "second"] in
  let E := an_env (Return None) in
  length instruction = length output
  ∧ NoDup instruction
  ∧ fs_open_w E (output_file_name (clock E)) = None
  ∧ ∃ d,
      create_ds instruction output = Return d
      ∧ (transform_alpaca_format d E fresh []).1.1
        = Return (output_file_name (clock E),
                  zip_with (λ i o, {| instruction := i; input := [];
                                      output := o |})
                    instruction output).
Proof.
  assert (Hnd : NoDup [py "Problem A"; py "Problem B"]).
  { apply (bool_decide_unpack _). vm_compute. exact I. }
  split; [reflexivity|]. split; [exact Hnd|]. split; [reflexivity|].
  exact (transform_alpaca_format_after_create_ds
           [py "Problem A"; py "Problem B"] [py "first"; py "second"]
           (an_env (Return None)) fresh [] eq_refl Hnd eq_refl).
Defined.

(** X14.  When the file cannot be opened, [transform_alpaca_format] raises
    the error of the file system and leaves no trace: nothing is
    written. *)
Theorem transform_alpaca_format_open_fails dataset E w l e :
  fs_open_w E (output_file_name (clock E)) = Some e →
  let run := transform_alpaca_format dataset E w l in
  run.1.1 = Raise e ∧ run.1.2 = w.
Proof.
  intros Hopen. rewrite transform_alpaca_format_run. cbv zeta.
  by rewrite Hopen.
Qed.

Lemma transform_alpaca_format_open_fails_witness :
  let E := an_env_read_only in
  let run := transform_alpaca_format [(py "Q", py "A")] E fresh [] in
  fs_open_w E (output_file_name (clock E))
  = Some (OSError "Read-only file system")
  ∧ run.1.1 = Raise (OSError "Read-only file system") ∧ run.1.2 = fresh.
Proof.
  split; [reflexivity|].
  exact (transform_alpaca_format_open_fails [(py "Q", py "A")]
           an_env_read_only fresh [] (OSError "Read-only file system")
           eq_refl).
Defined.

(* ===================================================================== *)
(** * More about publishing *)
(* ===================================================================== *)

Lemma split_no_sep sep (s : str) : sep ∉ s → split sep s = [s].
Proof.
  induction s as [|c s IH]; [done|]. intros [Hne Hnin]%not_elem_of_cons.
  simpl. rewrite bool_decide_eq_false_2 by (by intros ->).
  by rewrite IH.
Qed.

(** [owner/name] splits into the owner and the name. *)
Lemma split_owner_name sep (owner name : str) :
  sep ∉ owner → sep ∉ name → split sep (owner ++ sep :: name) = [owner; name].
Proof.
  intros Ho Hn. induction owner as [|c owner IH]; simpl.
  - rewrite bool_decide_eq_true_2 by done. by rewrite split_no_sep.
  - apply not_elem_of_cons in Ho as [Hne Ho].
    rewrite bool_decide_eq_false_2 by (by intros ->).
    by rewrite IH.
Qed.

(** The parts of a split are one more than the separators. *)
Lemma split_length sep (s : str) :
  length (split sep s) = S (length (filter (λ c, c = sep) s)).
Proof.
  induction s as [|c s IH]; [done|]. simpl. rewrite filter_cons.
  case_bool_decide as Hc.
  - rewrite decide_True by done. simpl. by rewrite IH.
  - rewrite decide_False by done.
    destruct (split sep s) as [|part parts]; simpl in *; lia.
Qed.

(** What [push_to_hf] does with two non-empty arguments, step by step. *)
Lemma push_to_hf_run E w json_path repo_id :
  json_path ≠ [] → repo_id ≠ [] →
  push_to_hf json_path repo_id E w ()
  = let done_with evs :=
      (Return (),
       {| calls := calls w; trace := trace w ++ CreateRepo repo_id :: evs |},
       ()) in
    match hub_create_repo E repo_id with
    | Raise e => done_with [Printed (PushError e)]
    | Return url =>
        match split "/"%char repo_id with
        | [username; _] =>
            let card := PushCard repo_id (dataset_card username) in
            match hub_push_card E repo_id (dataset_card username) with
            | Some e => done_with [card; Printed (PushError e)]
            | None =>
                match hub_load_dataset E json_path with
                | Some e =>
                    done_with [card; LoadDataset json_path;
                               Printed (PushError e)]
                | None =>
                    match hub_push_dataset E json_path repo_id with
                    | Some e =>
                        done_with [card; LoadDataset json_path;
                                   PushDataset json_path repo_id;
                                   Printed (PushError e)]
                    | None =>
                        done_with [card; LoadDataset json_path;
                                   PushDataset json_path repo_id;
                                   Printed (PushDone url)]
                    end
                end
            end
        | [] | [_] =>
            done_with
              [Printed (PushError (ValueError "not enough values to unpack"))]
        | _ =>
            done_with
              [Printed (PushError (ValueError "too many values to unpack"))]
        end
    end.
Proof.
  intros Hpath Hrepo. unfold push_to_hf.
  rewrite !bool_decide_eq_false_2 by done.
  unfold create_repo, unpack2, card_push_to_hub, load_dataset,
    dataset_push_to_hub. run_M.
  destruct (hub_create_repo E repo_id) as [url|e0]; simpl;
    [|by rewrite <- !app_assoc].
  destruct (split "/"%char repo_id) as [|username [|name [|more parts]]];
    run_M; try by rewrite <- !app_assoc.
  destruct (hub_push_card E repo_id (dataset_card username)) as [e1|]; run_M;
    [by rewrite <- !app_assoc|].
  destruct (hub_load_dataset E json_path) as [e2|]; run_M;
    [by rewrite <- !app_assoc|].
  destruct (hub_push_dataset E json_path repo_id) as [e3|]; run_M;
    by rewrite <- !app_assoc.
Qed.

(** X15.  Publishing under [owner/name] with a hub that accepts every
    request: the repository is created, the card made for the owner is
    published, the file is loaded and the dataset is uploaded, in this
    order, and the address of the repository is printed. *)
Theorem push_to_hf_publishes E w json_path (owner name url : str) :
  json_path ≠ [] →
  "/"%char ∉ owner → "/"%char ∉ name →
  let repo_id := owner ++ "/"%char :: name in
  hub_create_repo E repo_id = Return url →
  hub_push_card E repo_id (dataset_card owner) = None →
  hub_load_dataset E json_path = None →
  hub_push_dataset E json_path repo_id = None →
  push_to_hf json_path repo_id E w ()
  = (Return (),
     {| calls := calls w;
        trace := trace w ++ [CreateRepo repo_id;
                             PushCard repo_id (dataset_card owner);
                             LoadDataset json_path;
                             PushDataset json_path repo_id;
                             Printed (PushDone url)] |},
     ()).
Proof.
  intros Hpath Ho Hn repo_id Hcreate Hcard Hload Hpush.
  rewrite push_to_hf_run; [|done|by destruct owner].
  cbv zeta. fold repo_id. rewrite Hcreate.
  unfold repo_id at 1. rewrite split_owner_name by done.
  by rewrite Hcard, Hload, Hpush.
Qed.

Lemma push_to_hf_publishes_witness :
  let E := an_env (Return None) in
  py "data.json" ≠ []
  ∧ ("/"%char ∉ py "user") ∧ ("/"%char ∉ py "repo")
  ∧ push_to_hf (py "data.json") (py "user/repo") E fresh ()
    = (Return (),
       {| calls := 0;
          trace := [CreateRepo (py "user/repo");
                    PushCard (py "user/repo") (dataset_card (py "user"));
                    LoadDataset (py "data.json");
                    PushDataset (py "data.json") (py "user/repo");
                    Printed (PushDone (py "https://hub/user/repo"))] |},
       ()).
Proof.
  assert (Hpath : py "data.json" ≠ []) by (by vm_compute).
  assert (Ho : "/"%char ∉ py "user").
  { apply (bool_decide_unpack _). vm_compute. exact I. }
  assert (Hn : "/"%char ∉ py "repo").
  { apply (bool_decide_unpack _). vm_compute. exact I. }
  split; [exact Hpath|]. split; [exact Ho|]. split; [exact Hn|].
  exact (push_to_hf_publishes (an_env (Return None)) fresh (py "data.json")
           (py "user") (py "repo") (py "https://hub/user/repo")
           Hpath Ho Hn eq_refl eq_refl eq_refl eq_refl).
Defined.

(** X16.  A repository identifier that does not have exactly one slash is
    not refused at the beginning: the repository is created on the hub,
    then the identifier cannot be taken apart, the error is printed, and
    neither the card nor the dataset is published. *)
Theorem push_to_hf_malformed_repo_id E w json_path repo_id url :
  json_path ≠ [] → repo_id ≠ [] →
  length (filter (λ c, c = "/"%char) repo_id) ≠ 1 →
  hub_create_repo E repo_id = Return url →
  ∃ msg,
    push_to_hf json_path repo_id E w ()
    = (Return (),
       {| calls := calls w;
          trace := trace w ++ [CreateRepo repo_id;
                               Printed (PushError (ValueError msg))] |},
       ()).
Proof.
  intros Hpath Hrepo Hslashes Hcreate.
  rewrite push_to_hf_run by done. cbv zeta. rewrite Hcreate.
  pose proof (split_length "/"%char repo_id) as Hlen.
  destruct (split "/"%char repo_id) as [|username [|name [|more parts]]];
    simpl in Hlen; eauto. lia.
Qed.

Lemma push_to_hf_malformed_repo_id_witness :
  let E := an_env (Return None) in
  py "data.json" ≠ [] ∧ py "repo" ≠ []
  ∧ length (filter (λ c, c = "/"%char) (py "repo")) ≠ 1
  ∧ ∃ msg,
      push_to_hf (py "data.json") (py "repo") E fresh ()
      = (Return (),
         {| calls := 0;
            trace := [CreateRepo (py "repo");
                      Printed (PushError (ValueError msg))] |},
         ()).
Proof.
  assert (Hpath : py "data.json" ≠ []) by (by vm_compute).
  assert (Hrepo : py "repo" ≠ []) by (by vm_compute).
  assert (Hslashes : length (filter (λ c, c = "/"%char) (py "repo")) ≠ 1)
    by (by vm_compute).
  split; [exact Hpath|]. split; [exact Hrepo|]. split; [exact Hslashes|].
  exact (push_to_hf_malformed_repo_id (an_env (Return None)) fresh
           (py "data.json") (py "repo") (py "https://hub/repo")
           Hpath Hrepo Hslashes eq_refl).
Defined.

(** X17.  [push_to_hf] stops at the first request the hub refuses: when
    the creation of the repository fails nothing else is asked of the hub,
    and when the publication of the card fails the file is not loaded and
    the dataset is not uploaded. *)
Theorem push_to_hf_stops_at_failure E w json_path repo_id e :
  json_path ≠ [] → repo_id ≠ [] →
  (hub_create_repo E repo_id = Raise e →
   trace (push_to_hf json_path repo_id E w ()).1.2
   = trace w ++ [CreateRepo repo_id; Printed (PushError e)])
  ∧ (∀ url username name,
       hub_create_repo E repo_id = Return url →
       split "/"%char repo_id = [username; name] →
       hub_push_card E repo_id (dataset_card username) = Some e →
       trace (push_to_hf json_path repo_id E w ()).1.2
       = trace w ++ [CreateRepo repo_id;
                     PushCard repo_id (dataset_card username);
                     Printed (PushError e)]).
Proof.
  intros Hpath Hrepo. rewrite push_to_hf_run by done. cbv zeta. split.
  - by intros ->.
  - intros url username name -> -> ->. done.
Qed.

Lemma push_to_hf_stops_at_failure_witness :
  let E := an_env_hub_down in
  py "data.json" ≠ [] ∧ py "user/repo" ≠ []
  ∧ hub_create_repo E (py "user/repo") = Raise (HubError "401 Unauthorized")
  ∧ trace (push_to_hf (py "data.json") (py "user/repo") E fresh ()).1.2
    = [CreateRepo (py "user/repo");
       Printed (PushError (HubError "401 Unauthorized"))].
Proof.
  assert (Hpath : py "data.json" ≠ []) by (by vm_compute).
  assert (Hrepo : py "user/repo" ≠ []) by (by vm_compute).
  split; [exact Hpath|]. split; [exact Hrepo|]. split; [reflexivity|].
  exact (proj1 (push_to_hf_stops_at_failure an_env_hub_down fresh
                  (py "data.json") (py "user/repo")
                  (HubError "401 Unauthorized") Hpath Hrepo) eq_refl).
Defined.

(* ===================================================================== *)
(** * The driver *)
(* ===================================================================== *)

(** The instance the driver builds. *)
Lemma init_the_snail new_client (key : str) :
  init new_client (Some key) (Some SnailExample.model_id)
    (Some SnailExample.role) (Some SnailExample.user_query) (Some 2048%Z)
  = match key with
    | [] => Raise (ValueError "API key is missing or empty")
    | _ :: _ =>
        match new_client key with
        | Some e => Raise e
        | None => Return (the_snail key)
        end
    end.
Proof.
  unfold init. destruct key as [|c key]; [done|].
  change (default [] (Some (c :: key))) with (c :: key).
  change (missing (Some (c :: key))) with false. cbv iota.
  destruct (new_client (c :: key)); reflexivity.
Qed.

(** Unfold the operations of the driver. *)
Ltac run_D :=
  repeat progress
    (unfold mbind, SnailExample.D_bind, mret, SnailExample.D_ret,
       SnailExample.call, SnailExample.show, SnailExample.lift,
       SnailExample.extract_listings_of;
     cbv beta iota zeta;
     cbn [calls trace SnailExample.backend_calls SnailExample.outputs
          fst snd]).

(** Replace the run of [get_cot_result] in the goal by its result. *)
Ltac run_get_cot_result evs Hreq Hgen :=
  match goal with
  | |- context [get_cot_result ?self ?datas ?delay ?E ?w ?l] =>
      destruct (get_cot_result_trace E self datas delay w l)
        as (evs & -> & Hreq & Hgen & _)
  end.

Lemma output_file_name_not_empty now : output_file_name now ≠ [].
Proof. done. Qed.

Lemma push_to_hf_empty_repo_id json_path E w :
  json_path ≠ [] →
  push_to_hf json_path [] E w ()
  = (Raise (ValueError
              "The repository ID must be provided and cannot be empty."),
     w, ()).
Proof.
  intros Hpath. unfold push_to_hf.
  rewrite bool_decide_eq_false_2 by done.
  by rewrite bool_decide_eq_true_2.
Qed.

Lemma create_ds_mismatch (instruction output : list str) :
  length instruction ≠ length output →
  create_ds instruction output
  = Raise (ValueError "Instruction and output must be the same length").
Proof. intros H. unfold create_ds. by rewrite bool_decide_eq_true_2. Qed.

Lemma effects_app outs1 outs2 :
  effects (outs1 ++ outs2) = effects outs1 ++ effects outs2.
Proof. apply omap_app. Qed.

Lemma effects_Effect (evs : list event) :
  effects (SnailExample.Effect <$> evs) = evs.
Proof. induction evs as [|ev evs IH]; [done|]. csimpl. by f_equal. Qed.

(** X18.  The driver as it stands never returns normally: every run ends
    with an exception, whatever the key and whatever the backend, the file
    system and the hub answer, since the repository identifier it passes
    to [push_to_hf] is the empty string. *)
Theorem main_never_returns new_client key E st :
  ∃ e, (SnailExample.main new_client key E st).1 = inr e.
Proof.
  unfold SnailExample.main. rewrite init_the_snail.
  destruct key as [|c key]; [run_D; eauto|].
  destruct (new_client (c :: key)) as [e|]; [run_D; eauto|].
  run_D. rewrite searching_run. cbv zeta.
  destruct (backend E _ _) as [[r|]|e]; [|run_D; eauto..].
  run_D. run_get_cot_result evs Hreq Hgen. run_D.
  destruct (create_ds _ _) as [ds|e]; [|run_D; eauto].
  run_D. rewrite transform_alpaca_format_run. cbv zeta.
  destruct (fs_open_w E _) as [e|]; [run_D; eauto|].
  run_D. change SnailExample.repo_id with ([] : str).
  rewrite push_to_hf_empty_repo_id by apply output_file_name_not_empty.
  run_D. eauto.
Qed.

(** X19.  When the search call fails (it raises, or returns no response),
    the driver goes on with [None]: it stops on the [TypeError] of the
    extraction, after this one call to the backend. *)
Theorem main_search_failure new_client key E st :
  key ≠ [] → new_client key = None →
  success_text (backend E (SnailExample.backend_calls st)
                  (search_request (the_snail key))) = None →
  let run := SnailExample.main new_client key E st in
  (∃ msg, run.1 = inr (SnailExample.TypeError msg))
  ∧ SnailExample.backend_calls run.2 = S (SnailExample.backend_calls st)
  ∧ requests (effects (SnailExample.outputs run.2))
    = requests (effects (SnailExample.outputs st))
      ++ [search_request (the_snail key)].
Proof.
  intros Hkey Hclient Hfail.
  unfold SnailExample.main. rewrite init_the_snail.
  destruct key as [|c key]; [done|]. rewrite Hclient.
  run_D. rewrite searching_run. cbv zeta. cbn [calls].
  destruct (backend E _ _) as [[r|]|e]; [done|..]; run_D;
    (split; [eauto|]); (split; [done|]);
    rewrite !effects_app, effects_Effect, !requests_app; simpl;
    by rewrite app_nil_r.
Qed.

Lemma main_search_failure_witness :
  let E := an_env (Raise (APIError "quota")) in
  let run := SnailExample.main (λ _, None) (py "key") E not_begun in
  py "key" ≠ [] 
  ∧ success_text (backend E (SnailExample.backend_calls not_begun)
                    (search_request (the_snail (py "key")))) = None
  ∧ (∃ msg, run.1 = inr (SnailExample.TypeError msg))
  ∧ SnailExample.backend_calls run.2 = 1.
Proof.
  assert (Hkey : py "key" ≠ []) by (by vm_compute).
  split; [exact Hkey|]. split; [reflexivity|].
  pose proof (main_search_failure (λ _, None) (py "key")
                (an_env (Raise (APIError "quota"))) not_begun
                Hkey eq_refl eq_refl) as H.
  cbv zeta in H. destruct H as (H1 & H2 & _).
  split; [exact H1|exact H2].
Defined.

(** X20.  When the search succeeds and the call for one of the extracted
    items fails, the driver stops on the length error of [create_ds];
    until then it has only called the backend, printed and paused: no file
    is written and nothing is asked of the hub. *)
Theorem main_cot_failure new_client key E st r i item :
  key ≠ [] → new_client key = None →
  backend E (SnailExample.backend_calls st) (search_request (the_snail key))
  = Return (Some r) →
  extract_listings (text r) !! i = Some item →
  success_text (backend E (S (SnailExample.backend_calls st) + i)
                  (cot_request (the_physics_snail key) item)) = None →
  let run := SnailExample.main new_client key E st in
  run.1 = inr (SnailExample.MethodError
                 (ValueError "Instruction and output must be the same length"))
  ∧ ∃ evs,
      effects (SnailExample.outputs run.2)
      = effects (SnailExample.outputs st) ++ evs
      ∧ Forall generation_event evs.
Proof.
  intros Hkey Hclient Hsearch Hitem Hfail.
  unfold SnailExample.main. rewrite init_the_snail.
  destruct key as [|c key]; [done|]. rewrite Hclient.
  run_D. rewrite searching_run. cbv zeta. cbn [calls]. rewrite Hsearch.
  run_D. run_get_cot_result evs Hreq Hgen. run_D.
  rewrite create_ds_mismatch.
  - run_D. split; [done|].
    exists (Generate (search_request (the_snail (c :: key))) :: evs).
    rewrite !effects_app, !effects_Effect. simpl.
    rewrite !app_nil_r, <- app_assoc. split; [done|].
    by constructor.
  - intros Hlen. symmetry in Hlen.
    destruct (proj1 (successful_texts_all _ _ _ _) Hlen i item Hitem)
      as [r' Hr'].
    unfold the_physics_snail in Hfail. by rewrite Hr' in Hfail.
Qed.

Lemma main_cot_failure_witness :
  let E := an_env_listing (λ k, if bool_decide (k = 1)
                                then Raise (APIError "quota")
                                else Return (Some a_response)) in
  let run := SnailExample.main (λ _, None) (py "key") E not_begun in
  py "key" ≠ []
  ∧ extract_listings listing_problems !! 1 = Some (py "Problem B")
  ∧ run.1 = inr (SnailExample.MethodError
                   (ValueError
                      "Instruction and output must be the same length")).
Proof.
  assert (Hkey : py "key" ≠ []) by (by vm_compute).
  assert (Hitem : extract_listings listing_problems !! 1
                  = Some (py "Problem B")) by (by vm_compute).
  split; [exact Hkey|]. split; [exact Hitem|].
  exact (proj1 (main_cot_failure (λ _, None) (py "key")
                  (an_env_listing (λ k, if bool_decide (k = 1)
                                        then Raise (APIError "quota")
                                        else Return (Some a_response)))
                  not_begun
                  {| text := listing_problems;
                     usage_metadata := py "total_token_count=7" |}
                  1 (py "Problem B") Hkey eq_refl eq_refl Hitem eq_refl)).
Defined.

(** X21.  When the search and every call for the extracted items succeed
    and the file can be opened, the driver writes the file and then stops
    on the error of [push_to_hf] for the empty repository identifier:
    nothing is asked of the hub. *)
Theorem main_stops_before_publishing new_client key E st r :
  key ≠ [] → new_client key = None →
  backend E (SnailExample.backend_calls st) (search_request (the_snail key))
  = Return (Some r) →
  (∀ i item, extract_listings (text r) !! i = Some item →
     ∃ r', backend E (S (SnailExample.backend_calls st) + i)
             (cot_request (the_physics_snail key) item) = Return (Some r')) →
  fs_open_w E (output_file_name (clock E)) = None →
  let run := SnailExample.main new_client key E st in
  run.1 = inr (SnailExample.MethodError
                 (ValueError
                    "The repository ID must be provided and cannot be empty."))
  ∧ ∃ evs data,
      effects (SnailExample.outputs run.2)
      = effects (SnailExample.outputs st) ++ evs
        ++ [WriteJson (output_file_name (clock E)) data]
      ∧ Forall generation_event evs
      ∧ length data ≤ length (extract_listings (text r)).
Proof.
  intros Hkey Hclient Hsearch Hall Hopen.
  unfold SnailExample.main. rewrite init_the_snail.
  destruct key as [|c key]; [done|]. rewrite Hclient.
  run_D. rewrite searching_run. cbv zeta. cbn [calls]. rewrite Hsearch.
  run_D. run_get_cot_result evs Hreq Hgen. run_D.
  apply successful_texts_all in Hall. unfold the_physics_snail in Hall.
  destruct (create_ds_Return _ _ (eq_sym Hall)) as [-> Hfst].
  run_D. rewrite transform_alpaca_format_run. cbv zeta. rewrite Hopen.
  run_D. change SnailExample.repo_id with ([] : str).
  rewrite push_to_hf_empty_repo_id by apply output_file_name_not_empty.
  run_D. split; [done|].
  eexists (Generate (search_request (the_snail (c :: key))) :: evs), _.
  rewrite !effects_app, !effects_Effect. simpl.
  rewrite !app_nil_r, <- !app_assoc. split; [done|].
  split; [by constructor|].
  rewrite length_fmap. unfold PyDict.items.
  destruct (of_pairs_len
              (zip (extract_listings (text r))
                 (successful_texts E
                    (set_system_instruction_cot (the_snail (c :: key))
                       SnailExample.physics_instruction)
                    (S (SnailExample.backend_calls st))
                    (extract_listings (text r))))) as [Hle _].
  unfold PyDict.len in Hle. rewrite length_zip in Hle. lia.
Qed.

Lemma main_stops_before_publishing_witness :
  let E := an_env_listing (λ _, Return (Some a_response)) in
  let run := SnailExample.main (λ _, None) (py "key") E not_begun in
  py "key" ≠ []
  ∧ fs_open_w E (output_file_name (clock E)) = None
  ∧ run.1 = inr (SnailExample.MethodError
                   (ValueError
                      "The repository ID must be provided and cannot be empty.")).
Proof.
  assert (Hkey : py "key" ≠ []) by (by vm_compute).
  split; [exact Hkey|]. split; [reflexivity|].
  refine (proj1 (main_stops_before_publishing (λ _, None) (py "key")
                   (an_env_listing (λ _, Return (Some a_response)))
                   not_begun
                   {| text := listing_problems;
                      usage_metadata := py "total_token_count=7" |}
                   Hkey eq_refl eq_refl _ eq_refl)).
  intros i item _. exists a_response. reflexivity.
Defined.
